(** * CEB donor codes: list page, result table and e-mail submission service

    A shallow embedding of the parts of
    - [src/pages/DonorsListPage.tsx]        (module [DonorsListPage]),
    - [src/components/search/SearchResults.tsx] (module [SearchResults]),
    - [src/services/emailService.ts]        (module [EmailService])
    that decide what is displayed and what is sent, followed by the
    properties established about them.

    Strings are sequences of code units; the development works with the
    code units U+0000..U+00FF, one [ascii] per code unit. *)

From Equations Require Import Equations.
From Stdlib Require Import String Ascii DecimalString.
From Stdlib Require Import List Arith ZArith QArith Lia Bool.
From Stdlib Require Import Sorted Permutation.
Import ListNotations.

Local Open Scope string_scope.
Local Open Scope list_scope.
Local Open Scope nat_scope.

(* ================================================================== *)
(** * The host language: completions, strings, truthiness             *)
(* ================================================================== *)

Module JS.

(** Values that the modelled code throws or catches. *)
Inductive thrown : Type :=
| SyntaxError (message : string)   (* thrown by [new RegExp] *)
| Error (message : string)         (* [new Error(message)] *)
| StatusObject (text : string)     (* an object with a [text] property *)
| OtherValue.                      (* anything else *)

(** Outcome of running a piece of code.  [OutOfFragment] marks a run
    that leaves the part of the host language modelled here (see
    [RegExp.compile]); nothing is stated about such runs. *)
Inductive completion (A : Type) : Type :=
| Returns (a : A)
| Throws (e : thrown)
| OutOfFragment.
Arguments Returns {A} a.
Arguments Throws {A} e.
Arguments OutOfFragment {A}.

Definition code (c : ascii) : nat := nat_of_ascii c.

Definition between (lo hi n : nat) : bool := (lo <=? n) && (n <=? hi).

(** WhiteSpace and LineTerminator code units below U+0100. *)
Definition isWhiteSpace (c : ascii) : bool :=
  let n := code c in between 9 13 n || (n =? 32) || (n =? 160).

Fixpoint trimStart (s : string) : string :=
  match s with
  | String c s' => if isWhiteSpace c then trimStart s' else s
  | EmptyString => EmptyString
  end.

Fixpoint trimEnd (s : string) : string :=
  match s with
  | String c s' =>
      match trimEnd s' with
      | EmptyString => if isWhiteSpace c then EmptyString else String c EmptyString
      | t => String c t
      end
  | EmptyString => EmptyString
  end.

(** [s.trim()] *)
Definition trim (s : string) : string := trimEnd (trimStart s).

(** Truthiness of a string: every string but the empty one. *)
Definition truthy (s : string) : bool :=
  match s with EmptyString => false | String _ _ => true end.

(** Truthiness of a possibly [undefined] string. *)
Definition truthy_opt (o : option string) : bool :=
  match o with Some s => truthy s | None => false end.

(** [a || b] on a possibly undefined string and a string. *)
Definition or_else (o : option string) (d : string) : string :=
  match o with
  | Some s => if truthy s then s else d
  | None => d
  end.

(** [s.includes(sub)] *)
Fixpoint includes (s sub : string) : bool :=
  String.prefix sub s ||
  match s with
  | String _ s' => includes s' sub
  | EmptyString => false
  end.

(** Upper- and lower-case mapping of one code unit (Basic Latin and
    Latin-1 letters; a code unit whose mapping leaves the range, or is
    not a single code unit, is left as it is). *)
Definition toUpperCase_unit (c : ascii) : ascii :=
  let n := code c in
  if between 97 122 n || (between 224 254 n && negb (n =? 247))
  then ascii_of_nat (n - 32) else c.

Definition toLowerCase_unit (c : ascii) : ascii :=
  let n := code c in
  if between 65 90 n || (between 192 222 n && negb (n =? 215))
  then ascii_of_nat (n + 32) else c.

Fixpoint map_units (f : ascii -> ascii) (s : string) : string :=
  match s with
  | String c s' => String (f c) (map_units f s')
  | EmptyString => EmptyString
  end.

(** [s.toUpperCase()]: code unit by code unit, U+00DF becoming "SS".  The
    upper-case forms of U+00B5 and U+00FF lie outside the range, so that a
    text holding one of them has no upper-case form among these strings:
    the two code units are left as they are, and what is stated of texts
    in upper case leaves such texts out. *)
Definition toUpperCase_units (c : ascii) : string :=
  if code c =? 223 then "SS" else String (toUpperCase_unit c) "".

Fixpoint toUpperCase (s : string) : string :=
  match s with
  | String c s' => toUpperCase_units c ++ toUpperCase s'
  | EmptyString => EmptyString
  end.

(** [s.toLowerCase()]: every code unit of the range has its lower-case
    form in the range. *)
Definition toLowerCase : string -> string := map_units toLowerCase_unit.

(** Template-literal rendering of a non-negative integer. *)
Definition number_to_string (n : nat) : string :=
  NilEmpty.string_of_uint (Nat.to_uint n).

(** [lines.join(sep)] *)
Fixpoint join (sep : string) (lines : list string) : string :=
  match lines with
  | [] => ""
  | [l] => l
  | l :: rest => l ++ sep ++ join sep rest
  end.

(** [l.slice(s, e)] for [0 <= s <= e]. *)
Definition slice {A} (s e : nat) (l : list A) : list A :=
  firstn (e - s) (skipn s l).

(** [encodeURIComponent(s)]: letters, digits and [- _ . ! ~ * ' ( )] stay;
    any other code unit becomes the percent-escaped bytes of its UTF-8
    form (one byte below U+0080, two bytes from there to U+00FF). *)
Definition isUnreserved (c : ascii) : bool :=
  let n := code c in
  between 65 90 n || between 97 122 n || between 48 57 n
  || existsb (Ascii.eqb c) ["-"; "_"; "."; "!"; "~"; "*"; "'"; "("; ")"]%char.

Definition hex_digit (n : nat) : ascii :=
  if n <? 10 then ascii_of_nat (48 + n) else ascii_of_nat (55 + n).

Definition percent (byte : nat) : string :=
  String "%" (String (hex_digit (byte / 16)) (String (hex_digit (byte mod 16)) "")).

Definition encode_unit (c : ascii) : string :=
  let n := code c in
  if isUnreserved c then String c ""
  else if n <? 128 then percent n
  else percent (192 + n / 64) ++ percent (128 + n mod 64).

Fixpoint encodeURIComponent (s : string) : string :=
  match s with
  | String c s' => encode_unit c ++ encodeURIComponent s'
  | EmptyString => EmptyString
  end.

(** A possibly undefined string inside a template literal. *)
Definition interpolate (o : option string) : string :=
  match o with Some s => s | None => "undefined" end.

End JS.

(* ================================================================== *)
(** * Regular expressions: the fragment used to run the basic search  *)
(* ================================================================== *)

(** [new RegExp(pattern, 'gi')] and [String.prototype.match] for the
    following fragment of the pattern grammar: pattern characters, [.],
    identity escapes of syntax characters, alternation, capturing and
    [(?:] groups, and the quantifiers [*], [+], [?] with their lazy forms.
    Assertions, classes, braced quantifiers and the other escapes are
    reported as [Unsupported]. *)
Module RegExp.

Inductive node : Type :=
| Empty
| Char (c : ascii)
| Dot
| Seq (a b : node)
| Alt (a b : node)
| Star (a : node)
| Plus (a : node)
| Opt (a : node).

Inductive compiled : Type :=
| Pattern (r : node)
| Invalid (message : string)
| Unsupported.

(** What may follow the last term of the alternative being read. *)
Inductive qstate : Type :=
| NoAtom       (* nothing a quantifier could apply to *)
| Atom         (* an atom without quantifier *)
| Quantified.  (* an atom with a quantifier: only a lazy [?] may follow *)

Record frame : Type := mkFrame {
  alts : list node;   (* finished alternatives, last one first *)
  cur : list node;    (* terms of the current alternative, last one first *)
  qst : qstate
}.

Definition empty_frame : frame := mkFrame [] [] NoAtom.

Definition mk_seq (terms : list node) : node := fold_right Seq Empty terms.

Fixpoint mk_alt (first : node) (others : list node) : node :=
  match others with
  | [] => first
  | o :: os => Alt first (mk_alt o os)
  end.

(** The disjunction read into a frame. *)
Definition close (f : frame) : node :=
  match rev (mk_seq (rev (cur f)) :: alts f) with
  | [] => Empty
  | a :: others => mk_alt a others
  end.

Definition push_atom (f : frame) (a : node) : frame :=
  mkFrame (alts f) (a :: cur f) Atom.

Definition next_alternative (f : frame) : frame :=
  mkFrame (mk_seq (rev (cur f)) :: alts f) [] NoAtom.

Definition quantify (q : node -> node) (f : frame) : compiled + frame :=
  match qst f, cur f with
  | Atom, a :: terms => inr (mkFrame (alts f) (q a :: terms) Quantified)
  | _, _ => inl (Invalid "Nothing to repeat")
  end.

(** SyntaxCharacter of the pattern grammar. *)
Definition isSyntaxCharacter (c : ascii) : bool :=
  existsb (Ascii.eqb c)
    ["^"; "$"; "\"; "."; "*"; "+"; "?"; "("; ")"; "["; "]"; "{"; "}"; "|"]%char.

(** The parser: one pass over the pattern, [top] is the group being
    read and [stack] the enclosing ones. *)
Fixpoint parse (p : string) (top : frame) (stack : list frame) : compiled :=
  match p with
  | EmptyString =>
      match stack with
      | [] => Pattern (close top)
      | _ :: _ => Invalid "Unterminated group"
      end
  | String c rest =>
      match c with
      | "("%char =>
          match rest with
          | String "?" (String ":" rest') => parse rest' empty_frame (top :: stack)
          | String "?" _ => Unsupported
          | _ => parse rest empty_frame (top :: stack)
          end
      | ")"%char =>
          match stack with
          | [] => Invalid "Unmatched ')'"
          | parent :: stack' => parse rest (push_atom parent (close top)) stack'
          end
      | "|"%char => parse rest (next_alternative top) stack
      | "*"%char =>
          match quantify Star top with
          | inl e => e
          | inr top' => parse rest top' stack
          end
      | "+"%char =>
          match quantify Plus top with
          | inl e => e
          | inr top' => parse rest top' stack
          end
      | "?"%char =>
          match qst top with
          | Quantified => parse rest (mkFrame (alts top) (cur top) NoAtom) stack
          | _ =>
              match quantify Opt top with
              | inl e => e
              | inr top' => parse rest top' stack
              end
          end
      | "."%char => parse rest (push_atom top Dot) stack
      | "\"%char =>
          match rest with
          | EmptyString => Invalid "\ at end of pattern"
          | String d rest' =>
              if isSyntaxCharacter d || Ascii.eqb d "/"
              then parse rest' (push_atom top (Char d)) stack
              else Unsupported
          end
      | _ =>
          if isSyntaxCharacter c then Unsupported
          else parse rest (push_atom top (Char c)) stack
      end
  end.

(** [new RegExp(pattern, 'gi')] *)
Definition compile (pattern : string) : compiled := parse pattern empty_frame [].

(** Canonicalize under the [i] flag: the upper-case form of the code unit
    when that is one code unit, the code unit itself otherwise (U+00DF).
    The forms of U+00B5 and U+00FF lie outside the range and are the form
    of no other code unit of the range: the code unit stands for its
    form, which keeps every comparison of two canonical forms. *)
Definition canonicalize (c : ascii) : ascii := JS.toUpperCase_unit c.

Definition isLineTerminator (c : ascii) : bool :=
  (JS.code c =? 10) || (JS.code c =? 13).

(** Repetition: the continuation first, then one more round of [m];
    a round that consumes nothing is rejected. *)
Fixpoint repeat_matcher (m : string -> (string -> bool) -> bool)
         (fuel : nat) (s : string) (k : string -> bool) : bool :=
  k s ||
  match fuel with
  | O => false
  | S fuel' =>
      m s (fun s' =>
             (String.length s' <? String.length s) && repeat_matcher m fuel' s' k)
  end.

(** The matcher of a node, in continuation-passing style: [matcher r s k]
    holds when [r] matches a prefix of [s] whose remainder satisfies [k]. *)
Fixpoint matcher (r : node) (s : string) (k : string -> bool) : bool :=
  match r with
  | Empty => k s
  | Char c =>
      match s with
      | String d s' => Ascii.eqb (canonicalize c) (canonicalize d) && k s'
      | EmptyString => false
      end
  | Dot =>
      match s with
      | String d s' => negb (isLineTerminator d) && k s'
      | EmptyString => false
      end
  | Seq a b => matcher a s (fun s' => matcher b s' k)
  | Alt a b => matcher a s k || matcher b s k
  | Star a => repeat_matcher (matcher a) (String.length s) s k
  | Plus a =>
      matcher a s (fun s' => repeat_matcher (matcher a) (String.length s') s' k)
  | Opt a => matcher a s k || k s
  end.

(** Does [r] match at the start of [s]? *)
Definition matches_at (r : node) (s : string) : bool := matcher r s (fun _ => true).

(** [s.match(r) !== null]: with the [g] flag the search starts at index 0
    whatever happened before, and tries every index up to the end. *)
Fixpoint test_match (r : node) (s : string) : bool :=
  matches_at r s ||
  match s with
  | String _ s' => test_match r s'
  | EmptyString => false
  end.

End RegExp.

(* ================================================================== *)
(** * Array.prototype.sort                                             *)
(* ================================================================== *)

(** [undefined] entries go last without the comparison function being
    asked; the other entries are ordered by it, equal ones keeping their
    order (the sort is stable).  Entries are [option A], [None] standing
    for [undefined].  The algorithm is the host's choice; a stable
    insertion sort stands for it here, and with a consistent comparison
    function every stable sort returns the same list. *)
Module ArraySort.
Section WithComparefn.
Context {A : Type} (comparefn : A -> A -> Z).

Definition SortCompare (x y : option A) : Z :=
  match x, y with
  | None, None => 0
  | None, Some _ => 1
  | Some _, None => -1
  | Some a, Some b => comparefn a b
  end%Z.

Fixpoint insert (x : option A) (l : list (option A)) : list (option A) :=
  match l with
  | [] => [x]
  | y :: l' => if (SortCompare x y <=? 0)%Z then x :: l else y :: insert x l'
  end.

Definition sort (l : list (option A)) : list (option A) :=
  fold_right insert [] l.
End WithComparefn.
End ArraySort.

(* ================================================================== *)
(** * Records exchanged between the modules                            *)
(* ================================================================== *)

(** Modelled from the spec: the declarations of [types/donor] are not
    among the sources.  The records have the attributes of the spec's
    Record (name, code, contributor-type code, resolved contributor-type
    information) under the names the code reads them by; a field the code
    guards against being missing is an [option]. *)
Record ContributorType : Type := mkContributorType {
  type_NAME : option string;
  type_DEFINITION : option string
}.

Record DonorWithType : Type := mkDonor {
  NAME : option string;
  CEB_CODE : option string;              (* donor['CEB CODE'] *)
  CONTRIBUTOR_TYPE : option string;      (* donor['CONTRIBUTOR TYPE'] *)
  contributorTypeInfo : option ContributorType
}.

(** An entry of a donor array: [None] is an [undefined] entry. *)
Definition donor : Type := option DonorWithType.

Inductive SearchType : Type := EXACT | PARTIAL | FUZZY | SOUNDEX.

(** Modelled from the spec: the declarations of [services/searchService]
    are not among the sources.  [SearchResult] is the spec's MatchResult
    and [SearchStats] its SearchStats, under the names the code reads them
    by; the score is a rational number, of which only the order is used. *)
Record SearchResult : Type := mkResult {
  item : DonorWithType;
  score : option Q;
  highlightedName : option string;
  highlightedCode : option string
}.

Record SearchStats : Type := mkStats {
  totalResults : nat;
  searchTime : Q;
  searchType : SearchType;
  stats_query : string
}.

(** Modelled from the spec: the spec's FilterSet, declared with the
    [useSearch] hook, which is not among the sources. *)
Record SearchFilters : Type := mkFilters {
  governmentOnly : bool;
  nonGovernmentOnly : bool;
  contributorTypes : list string
}.

(** The argument of [setFilters]: the fields an object literal gives. *)
Record FiltersPatch : Type := mkPatch {
  patch_governmentOnly : option bool;
  patch_nonGovernmentOnly : option bool;
  patch_contributorTypes : option (list string)
}.

(* ================================================================== *)
(** * pages/DonorsListPage.tsx                                         *)
(* ================================================================== *)

Module DonorsListPage.
Import JS.

Definition ITEMS_PER_PAGE : nat := 20.

(** [!donor || !donor.NAME || !donor['CEB CODE']] *)
Definition missing_fields (d : donor) : bool :=
  match d with
  | None => true
  | Some r => negb (truthy_opt (NAME r)) || negb (truthy_opt (CEB_CODE r))
  end.

Section WithRegExp.
(** The regular expressions of the host, whatever patterns it accepts:
    [construct pattern] is [new RegExp(pattern, 'gi')], which returns a
    regular expression or throws, and [matches regex s] tells whether
    [s.match(regex)] is not [null]. *)
Context {R : Type}.
Variable construct : string -> completion R.
Variable matches : R -> string -> bool.

(** The callback given to [donorsWithTypes.filter] in the basic search. *)
Definition filter_callback (regex : R) (d : donor) : bool :=
  match d with
  | None => false
  | Some r =>
      match NAME r, CEB_CODE r with
      | Some name, Some code =>
          if negb (truthy name) || negb (truthy code) then false
          else matches regex name || matches regex code
      | _, _ => false
      end
  end.

(** The branch [else if (query.trim())]: what the constructor throws is
    not caught anywhere. *)
Definition basicSearchWith (query : string) (donorsWithTypes : list donor)
  : completion (list donor) :=
  match construct (trim query) with
  | Returns regex => Returns (filter (filter_callback regex) donorsWithTypes)
  | Throws e => Throws e
  | OutOfFragment => OutOfFragment
  end.

(** [displayData]: which records the page shows. *)
Definition displayDataWith (query : string) (useAdvancedSearch : bool)
           (results : list SearchResult) (donorsWithTypes : list donor)
  : completion (list donor) :=
  if truthy (trim query) && useAdvancedSearch then
    Returns (map (fun result => Some (item result)) results)
  else if truthy (trim query) then
    basicSearchWith query donorsWithTypes
  else
    Returns donorsWithTypes.
End WithRegExp.

(** [new RegExp(pattern, 'gi')] for the patterns of the modelled fragment;
    the message of the [SyntaxError] is worded as V8 words it. *)
Definition new_RegExp (pattern : string) : completion RegExp.node :=
  match RegExp.compile pattern with
  | RegExp.Invalid message =>
      Throws (SyntaxError ("Invalid regular expression: /" ++ pattern ++ "/gi: "
                             ++ message))
  | RegExp.Unsupported => OutOfFragment
  | RegExp.Pattern regex => Returns regex
  end.

(** The page with the regular expressions of the modelled fragment. *)
Definition basic_filter (regex : RegExp.node) (d : donor) : bool :=
  filter_callback RegExp.test_match regex d.

Definition basicSearch (query : string) (donorsWithTypes : list donor)
  : completion (list donor) :=
  basicSearchWith new_RegExp RegExp.test_match query donorsWithTypes.

Definition displayData (query : string) (useAdvancedSearch : bool)
           (results : list SearchResult) (donorsWithTypes : list donor)
  : completion (list donor) :=
  displayDataWith new_RegExp RegExp.test_match query useAdvancedSearch results
                  donorsWithTypes.

Section Sorted.
(** [String.prototype.localeCompare], supplied by the host. *)
Variable localeCompare : string -> string -> Z.

(** [a?.NAME || ''] *)
Definition name_or_empty (r : DonorWithType) : string := or_else (NAME r) "".

Definition by_name (a b : DonorWithType) : Z :=
  localeCompare (name_or_empty a) (name_or_empty b).

(** [sortedData]: a sorted copy of [displayData]. *)
Definition sortedData (displayData : list donor) : list donor :=
  ArraySort.sort by_name displayData.

(** [paginatedDonors] *)
Definition paginatedDonors (sorted : list donor) (currentPage : nat) : list donor :=
  let startIndex := (currentPage - 1) * ITEMS_PER_PAGE in
  slice startIndex (startIndex + ITEMS_PER_PAGE) sorted.

(** What the table is built from, for given inputs of the page. *)
Definition displayed (query : string) (useAdvancedSearch : bool)
           (results : list SearchResult) (donorsWithTypes : list donor)
  : completion (list donor) :=
  match displayData query useAdvancedSearch results donorsWithTypes with
  | Returns d => Returns (sortedData d)
  | Throws e => Throws e
  | OutOfFragment => OutOfFragment
  end.
End Sorted.

(** [donor.contributorTypeInfo?.NAME || 'Unknown'] *)
Definition getTypeDisplayName (r : DonorWithType) : string :=
  or_else (match contributorTypeInfo r with
           | Some info => type_NAME info
           | None => None
           end) "Unknown".

(** The three filter chips: the object each hands to [setFilters]. *)
Inductive chip : Type := Government | NonGovernment | ClearFilters.

Definition chip_patch (filters : SearchFilters) (c : chip) : FiltersPatch :=
  match c with
  | Government =>
      mkPatch (Some (negb (governmentOnly filters))) (Some false) None
  | NonGovernment =>
      mkPatch (Some false) (Some (negb (nonGovernmentOnly filters))) None
  | ClearFilters =>
      mkPatch (Some false) (Some false) (Some [])
  end.

Section Chips.
(** [setFilters] of the [useSearch] hook, which is not among the sources:
    the next filter state from the current one and the object passed. *)
Variable setFilters : SearchFilters -> FiltersPatch -> SearchFilters.

Definition onClick (filters : SearchFilters) (c : chip) : SearchFilters :=
  setFilters filters (chip_patch filters c).

(** The filter state after a sequence of clicks. *)
Definition clicks (filters : SearchFilters) (cs : list chip) : SearchFilters :=
  fold_left onClick cs filters.
End Chips.

(** Modelled from the spec: [setFilters] of the [useSearch] hook, which is
    not among the sources, as the setter of the spec's FilterSet that
    overwrites the fields it is given and keeps the others. *)
Definition mergeFilters (prev : SearchFilters) (p : FiltersPatch) : SearchFilters :=
  mkFilters
    (match patch_governmentOnly p with Some b => b | None => governmentOnly prev end)
    (match patch_nonGovernmentOnly p with Some b => b | None => nonGovernmentOnly prev end)
    (match patch_contributorTypes p with Some l => l | None => contributorTypes prev end).


(** [totalPages]: [Math.ceil(sortedData.length / ITEMS_PER_PAGE)] *)
Definition totalPages (sorted : list donor) : nat :=
  (List.length sorted + (ITEMS_PER_PAGE - 1)) / ITEMS_PER_PAGE.

(** Whether the pagination control is rendered: [!query && totalPages > 1]. *)
Definition pagination_shown (query : string) (sorted : list donor) : bool :=
  negb (truthy query) && (1 <? totalPages sorted).

(** The number in the summary line: the results found when there is a
    query, the total of donors otherwise. *)
Inductive summary : Type :=
| ResultsFound (count : nat)
| TotalDonors (count : nat).

Definition results_summary (query : string) (sorted donorsWithTypes : list donor)
  : summary :=
  if truthy query then ResultsFound (List.length sorted)
  else TotalDonors (List.length donorsWithTypes).

(** The cells of a table row for a record with name and code. *)
Record DonorCells : Type := mkCells {
  row_key : string;
  cell_name : string;
  cell_code : string;
  type_label : string;
  type_title : string;
  contributor_label : string;
  contributor_title : string;
  update_link : string;
  remove_link : string
}.

Inductive row : Type :=
| NoResultsRow                      (* "No Results" *)
| InvalidRow (key : string)         (* "Invalid donor data" *)
| DonorRow (cells : DonorCells).

(** The callback of [paginatedDonors.map]. *)
Definition donor_row (d : donor) (index : nat) : row :=
  if missing_fields d then InvalidRow ("error-" ++ number_to_string index)
  else
    match d with
    | Some r =>
        match NAME r, CEB_CODE r with
        | Some name, Some code =>
            DonorRow
              (mkCells
                 (code ++ "-" ++ number_to_string index)
                 name
                 code
                 (getTypeDisplayName r)
                 (or_else (match contributorTypeInfo r with
                           | Some info => type_DEFINITION info
                           | None => None
                           end) "No definition available")
                 (or_else (CONTRIBUTOR_TYPE r) "Unknown")
                 (interpolate (CONTRIBUTOR_TYPE r) ++ ": " ++ getTypeDisplayName r)
                 ("/donor-update/" ++ encodeURIComponent code)
                 ("/donor-remove/" ++ encodeURIComponent code))
        | _, _ => InvalidRow ("error-" ++ number_to_string index)
        end
    | None => InvalidRow ("error-" ++ number_to_string index)
    end.

Fixpoint map_indexed {A B} (f : A -> nat -> B) (index : nat) (l : list A) : list B :=
  match l with
  | [] => []
  | x :: rest => f x index :: map_indexed f (S index) rest
  end.

(** The body of the table. *)
Definition table_body (paginated : list donor) : list row :=
  if List.length paginated =? 0 then [NoResultsRow]
  else map_indexed donor_row 0 paginated.
End DonorsListPage.

(* ================================================================== *)
(** * components/search/SearchResults.tsx                              *)
(* ================================================================== *)

Module SearchResults.
Import JS.

Definition ITEMS_PER_PAGE : nat := 20.

Record SearchResultsProps : Type := mkProps {
  results : list SearchResult;
  stats : option SearchStats;
  isSearching : bool;
  showPagination : bool;
  itemsPerPage : nat
}.

(** What the component returns. *)
Inductive view : Type :=
| Progress (label : string)                          (* spinner and label *)
| InfoAlert (message : string)                       (* <Alert severity="info"> *)
| ResultsTable (s : SearchStats) (rows : list SearchResult).

Definition paginatedResults (p : SearchResultsProps) (currentPage : nat)
  : list SearchResult :=
  let startIndex := (currentPage - 1) * itemsPerPage p in
  if showPagination p
  then slice startIndex (startIndex + itemsPerPage p) (results p)
  else results p.

Definition render (p : SearchResultsProps) (currentPage : nat) : view :=
  if isSearching p then Progress "Searching..."
  else
    match stats p, results p with
    | None, _ => InfoAlert "Enter a search term to find donors"
    | Some _, [] => InfoAlert "No results found for your search."
    | Some s, _ :: _ => ResultsTable s (paginatedResults p currentPage)
    end.

(** [donor.contributorTypeInfo?.NAME || 'Unknown'] *)
Definition getTypeDisplayName (r : DonorWithType) : string :=
  or_else (match contributorTypeInfo r with
           | Some info => type_NAME info
           | None => None
           end) "Unknown".


(** [totalPages]: [Math.ceil(results.length / itemsPerPage)], for a
    positive [itemsPerPage]. *)
Definition totalPages (p : SearchResultsProps) : nat :=
  (List.length (results p) + (itemsPerPage p - 1)) / itemsPerPage p.

(** Whether the pagination control is rendered below the table. *)
Definition pagination_shown (p : SearchResultsProps) : bool :=
  showPagination p && (1 <? totalPages p).

(** [getScoreColor], the score read as a rational number. *)
Definition getScoreColor (score : option Q) : string :=
  match score with
  | None => "default"
  | Some q =>
      if Qeq_bool q 0 then "default"
      else if negb (Qle_bool q (8 # 10)) then "success"
      else if negb (Qle_bool q (5 # 10)) then "warning"
      else "error"
  end.
End SearchResults.

(* ================================================================== *)
(** * services/emailService.ts                                         *)
(* ================================================================== *)

Module EmailService.
Import JS.

(** ** Requests and submissions

    Modelled from the spec: the declarations of [types/request] are not
    among the sources.  A request is one of the spec's add, update or
    remove proposals and a submission a batch of them; the fields are those
    the service reads, with the values its comparisons name. *)

Inductive RequestAction : Type := new | update | remove.
Inductive RequestPriority : Type := low | normal | high.

Definition action_string (a : RequestAction) : string :=
  match a with new => "new" | update => "update" | remove => "remove" end.

Definition priority_string (p : RequestPriority) : string :=
  match p with low => "low" | normal => "normal" | high => "high" end.

Definition action_eqb (a b : RequestAction) : bool :=
  match a, b with
  | new, new | update, update | remove, remove => true
  | _, _ => false
  end.

Record OriginalDonor : Type := mkOriginal {
  original_name : string;
  original_code : string
}.

Record DonorRequest : Type := mkRequest {
  action : RequestAction;
  entityName : string;
  customCode : option string;
  suggestedCode : string;
  contributorType : string;
  priority : RequestPriority;
  contactName : string;
  contactEmail : string;
  justification : string;
  originalDonor : option OriginalDonor;
  removalReason : option string;
  additionalNotes : option string
}.

Record Submitter : Type := mkSubmitter {
  submitter_name : string;
  submitter_email : string
}.

Record RequestSubmission : Type := mkSubmission {
  submissionId : string;
  submittedBy : Submitter;
  requests : list DonorRequest;
  notes : option string
}.

(** ** Configuration and results *)

Record EmailConfig : Type := mkConfig {
  publicKey : option string;
  privateKey : option string;
  serviceId : option string;
  templateId : option string
}.

Definition CHUNK_SIZE : nat := 15.

(** The template variables handed to [emailjs.send]. *)
Record EmailContent : Type := mkContent {
  content_name : string;
  content_email : string;
  content_requests : string;
  content_json_snippet : string;
  content_additional_information : string
}.

(** What [emailjs.send] resolves with. *)
Record EmailJSResponseStatus : Type := mkResponse {
  response_status : nat;
  response_text : string
}.

(** How one call of [emailjs.send] ends. *)
Inductive send_outcome : Type :=
| Resolved (response : EmailJSResponseStatus)
| Rejected (error : thrown).

Record EmailSubmissionResult : Type := mkSubmissionResult {
  success : bool;
  result_submissionId : option string;
  error : option string;
  details : option send_outcome;
  totalBatches : option nat;
  successfulBatches : option nat;
  failedBatches : option nat;
  batchErrors : option (list string)
}.

(** ** Chunking *)

(** The loop of [splitIntoChunks]: [i] advances by [CHUNK_SIZE] while it
    is below the length. *)
Equations? chunk_loop {A} (requests : list A) (i : nat) (chunks : list (list A))
  : list (list A) by wf (List.length requests - i) lt :=
  chunk_loop requests i chunks with le_lt_dec (List.length requests) i => {
    | left _ := chunks;
    | right _ :=
        chunk_loop requests (i + CHUNK_SIZE)
                   (chunks ++ [slice i (i + CHUNK_SIZE) requests]) }.
Proof. unfold CHUNK_SIZE. lia. Qed.

Definition splitIntoChunks {A} (requests : list A) : list (list A) :=
  if List.length requests =? 0 then [] else chunk_loop requests 0 [].

(** ** Formatting *)

Definition nl : string := String "010" "".

(** [req.customCode || req.suggestedCode] *)
Definition request_code (req : DonorRequest) : string :=
  or_else (customCode req) (suggestedCode req).

(** The lines [formatRequestsTable] pushes for the request at [index]. *)
Definition request_lines (index : nat) (req : DonorRequest) : list string :=
  [ (number_to_string (index + 1) ++ ". " ++ toUpperCase (action_string (action req))
       ++ " REQUEST:")%string;
    ("   Entity Name: " ++ entityName req)%string;
    ("   Code: " ++ request_code req)%string;
    ("   Contributor Type: " ++ contributorType req)%string;
    ("   Priority: " ++ toUpperCase (priority_string (priority req)))%string;
    ("   Contact: " ++ contactName req ++ " (" ++ contactEmail req ++ ")")%string;
    ("   Justification: " ++ justification req)%string ]
  ++ match originalDonor req with
     | Some o =>
         if action_eqb (action req) update || action_eqb (action req) remove
         then [ ("   Original Entity: " ++ original_name o)%string;
                ("   Original Code: " ++ original_code o)%string ]
         else []
     | None => []
     end
  ++ match removalReason req with
     | Some reason =>
         if truthy reason && action_eqb (action req) remove
         then [ ("   Removal Reason: " ++ toUpperCase reason)%string ]
         else []
     | None => []
     end
  ++ (if truthy_opt (additionalNotes req)
      then [ ("   Additional Notes: " ++ or_else (additionalNotes req) "")%string ]
      else [])
  ++ [ "" ].

Fixpoint forEach_lines {A} (f : nat -> A -> list string) (index : nat) (l : list A)
  : list string :=
  match l with
  | [] => []
  | x :: rest => f index x ++ forEach_lines f (S index) rest
  end.

Definition formatRequestsTable (reqs : list DonorRequest)
           (batchNumber totalBatches : nat) : string :=
  join nl
    ((if 1 <? totalBatches
      then [ ("BATCH " ++ number_to_string batchNumber ++ " OF "
                ++ number_to_string totalBatches)%string;
             ("(" ++ number_to_string (List.length reqs)
                ++ " requests in this batch)")%string;
             "" ]
      else [])
     ++ [ "REQUEST DETAILS:"; "================"; "" ]
     ++ forEach_lines request_lines 0 reqs).

(** [getTypeFromContributorType] *)
Definition getTypeFromContributorType (contributorType : string) : string :=
  if String.eqb contributorType "C01" then "1" else "0".

(** The double-quote character, as a string. *)
Definition dquote : string := String "034" "".

(** The [escapedName] of [formatCsvSnippets]. *)
Definition escapedName (name : string) : string :=
  if includes name "," then dquote ++ name ++ dquote else name.

Definition csvLine (req : DonorRequest) : string :=
  escapedName (entityName req) ++ ","
    ++ getTypeFromContributorType (contributorType req) ++ ","
    ++ request_code req ++ ","
    ++ contributorType req.

Definition csv_header : list string :=
  [ "CSV DATABASE ENTRIES FOR NEW REQUESTS:";
    "=======================================";
    "Copy and paste the lines below into DONORS.csv";
    "";
    "CSV Format: NAME,TYPE,CEB CODE,CONTRIBUTOR TYPE";
    "" ].

Definition csv_numbered (index : nat) (req : DonorRequest) : list string :=
  [ (number_to_string (index + 1) ++ ". " ++ csvLine req)%string ].

Definition formatCsvSnippets (newRequests : list DonorRequest) : string :=
  if List.length newRequests =? 0
  then "No new requests requiring CSV database entries."
  else join nl (csv_header ++ forEach_lines csv_numbered 0 newRequests).

Definition with_action (a : RequestAction) (reqs : list DonorRequest) :=
  filter (fun r => action_eqb (action r) a) reqs.

(** [formatEmailContent], on the requests of one batch. *)
Definition formatEmailContent (submission : RequestSubmission)
           (batch : list DonorRequest) (batchNumber totalBatches : nat)
  : EmailContent :=
  let newRequests := with_action new batch in
  let batchRequests := newRequests ++ with_action update batch ++ with_action remove batch in
  mkContent
    (submitter_name (submittedBy submission))
    (submitter_email (submittedBy submission))
    (formatRequestsTable batchRequests batchNumber totalBatches)
    (formatCsvSnippets newRequests)
    (or_else (notes submission) "N/A").

Definition priority_eqb (a b : RequestPriority) : bool :=
  match a, b with
  | low, low | normal, normal | high, high => true
  | _, _ => false
  end.

(** [getHighestPriority] *)
Definition getHighestPriority (reqs : list DonorRequest) : string :=
  let priorities := map priority reqs in
  if existsb (priority_eqb high) priorities then "high"
  else if existsb (priority_eqb normal) priorities then "normal"
  else "low".

(** ** The service: state, effects, submission *)

(** The service object and what it has handed to [emailjs.send]. *)
Record service : Type := mkService {
  initialized : bool;
  outbox : list EmailContent
}.

Definition M (A : Type) : Type := service -> completion A * service.

Definition ret {A} (a : A) : M A := fun s => (Returns a, s).

Definition throw {A} (e : thrown) : M A := fun s => (Throws e, s).

Definition bind {A B} (m : M A) (k : A -> M B) : M B :=
  fun s =>
    match m s with
    | (Returns a, s') => k a s'
    | (Throws e, s') => (Throws e, s')
    | (OutOfFragment, s') => (OutOfFragment, s')
    end.

Definition try_catch {A} (m : M A) (handler : thrown -> M A) : M A :=
  fun s =>
    match m s with
    | (Throws e, s') => handler e s'
    | r => r
    end.

Notation "x <- m ;; k" := (bind m (fun x => k))
  (at level 61, m at next level, right associativity).

(** [error.message] when [error instanceof Error]. *)
Definition error_message (e : thrown) : option string :=
  match e with
  | SyntaxError m | Error m => Some m
  | _ => None
  end.

Section WithEnvironment.
(** The import-time configuration and the mail gateway: the outcome
    of the call of [emailjs.send] made after [n] earlier ones. *)
Variable EMAIL_CONFIG : EmailConfig.
Variable emailjs_send : nat -> EmailContent -> send_outcome.

Definition missing_variables : list string :=
  (if truthy_opt (publicKey EMAIL_CONFIG) then [] else ["VITE_EMAILJS_PUBLIC_KEY"])
  ++ (if truthy_opt (serviceId EMAIL_CONFIG) then [] else ["VITE_EMAILJS_SERVICE_ID"])
  ++ (if truthy_opt (templateId EMAIL_CONFIG) then [] else ["VITE_EMAILJS_TEMPLATE_ID"]).

Definition initialize : M unit :=
  try_catch
    (if negb (truthy_opt (publicKey EMAIL_CONFIG))
        || negb (truthy_opt (serviceId EMAIL_CONFIG))
        || negb (truthy_opt (templateId EMAIL_CONFIG))
     then throw (Error ("EmailJS environment variables not configured: "
                          ++ join ", " missing_variables
                          ++ ". Set these in Netlify Site Settings > Environment Variables."))
     else fun s => (Returns tt, mkService true (outbox s)))
    (fun e => throw (Error ("Email service initialization failed: "
                              ++ match error_message e with
                                 | Some m => m
                                 | None => "Unknown error"
                                 end))).

(** [await emailjs.send(serviceId, templateId, emailContent)] *)
Definition send (content : EmailContent) : M EmailJSResponseStatus :=
  fun s =>
    let s' := mkService (initialized s) (outbox s ++ [content]) in
    match emailjs_send (List.length (outbox s)) content with
    | Resolved response => (Returns response, s')
    | Rejected e => (Throws e, s')
    end.

(** The message [sendSingleBatch] extracts from what it caught. *)
Definition batch_error_message (e : thrown) : string :=
  match e with
  | StatusObject text => text
  | SyntaxError m | Error m => m
  | OtherValue => "Unknown email error"
  end.

Definition sendSingleBatch (submission : RequestSubmission)
           (batch : list DonorRequest) (batchNumber totalBatches : nat)
  : M EmailSubmissionResult :=
  try_catch
    (response <- send (formatEmailContent submission batch batchNumber totalBatches) ;;
     ret (mkSubmissionResult true (Some (submissionId submission)) None
            (Some (Resolved response)) (Some totalBatches) (Some 1) (Some 0) None))
    (fun e =>
       let errorMessage := batch_error_message e in
       ret (mkSubmissionResult false None
              (Some ("Batch " ++ number_to_string batchNumber ++ "/"
                       ++ number_to_string totalBatches ++ " failed: "
                       ++ errorMessage)%string)
              (Some (Rejected e)) (Some totalBatches) (Some 0) (Some 1)
              (Some [errorMessage]))).

(** The counters of the loop of [sendMultipleBatches]. *)
Record tally : Type := mkTally {
  tally_successful : nat;
  tally_failed : nat;
  tally_errors : list string
}.

(** The loop body, for the batch at index [i]; the pause between two
    batches changes no value and is left out. *)
Fixpoint batches_loop (submission : RequestSubmission) (totalBatches : nat)
         (i : nat) (chunks : list (list DonorRequest)) (t : tally) : M tally :=
  match chunks with
  | [] => ret t
  | batch :: rest =>
      result <- sendSingleBatch submission batch (i + 1) totalBatches ;;
      batches_loop submission totalBatches (S i) rest
        (if success result
         then mkTally (S (tally_successful t)) (tally_failed t) (tally_errors t)
         else mkTally (tally_successful t) (S (tally_failed t))
                (match error result with
                 | Some e => if truthy e then tally_errors t ++ [e] else tally_errors t
                 | None => tally_errors t
                 end))
  end.

Definition sendMultipleBatches (submission : RequestSubmission)
           (chunks : list (list DonorRequest)) : M EmailSubmissionResult :=
  let totalBatches := List.length chunks in
  t <- batches_loop submission totalBatches 0 chunks (mkTally 0 0 []) ;;
  let allSuccessful := tally_failed t =? 0 in
  ret (mkSubmissionResult allSuccessful (Some (submissionId submission))
         (if allSuccessful then None
          else Some (number_to_string (tally_failed t) ++ " of "
                       ++ number_to_string totalBatches
                       ++ " batch(es) failed to send")%string)
         None (Some totalBatches) (Some (tally_successful t)) (Some (tally_failed t))
         (if 0 <? List.length (tally_errors t) then Some (tally_errors t) else None)).

(** The [catch] of [submitRequests]. *)
Definition submit_error_message (e : thrown) : string :=
  match e with
  | StatusObject text =>
      if includes text "Invalid grant" || includes text "reconnect"
      then "Email service configuration needs to be updated. Please contact the administrator to reconnect the Gmail account."
      else if includes text "Unauthorized"
      then "Email service authorization expired. Please contact the administrator."
      else if includes text "Rate limit"
      then "Too many requests. Please wait a moment and try again."
      else text
  | SyntaxError m | Error m => m
  | OtherValue => "Unknown email error"
  end.

Definition submitRequests (submission : RequestSubmission) : M EmailSubmissionResult :=
  fun s =>
    (_ <- (if negb (initialized s) then initialize else ret tt) ;;
     try_catch
       (if List.length (requests submission) <=? CHUNK_SIZE
        then sendSingleBatch submission (requests submission) 1 1
        else sendMultipleBatches submission (splitIntoChunks (requests submission)))
       (fun e =>
          ret (mkSubmissionResult false None (Some (submit_error_message e))
                 (Some (Rejected e)) None None None None))) s.


(** [testConnection] *)
Definition testConnection : M bool :=
  fun s =>
    try_catch
      (_ <- (if negb (initialized s) then initialize else ret tt) ;;
       ret true)
      (fun _ => ret false) s.

End WithEnvironment.

End EmailService.

(* ================================================================== *)
(** * Vocabulary of the statements about the e-mail service            *)
(* ================================================================== *)

Module Report.
Import JS EmailService.

(** The state after one more mail has been handed to the gateway. *)
Definition posted (s : service) (content : EmailContent) : service :=
  mkService (initialized s) (outbox s ++ [content]).

(** The service can send: it is initialised, or [initialize] will succeed. *)
Definition ready (config : EmailConfig) (s : service) : bool :=
  initialized s
  || (truthy_opt (publicKey config) && truthy_opt (serviceId config)
      && truthy_opt (templateId config)).


(** A result accounts for [n] batches: the two counters add up to the
    total, [success] says that none failed, and there is one collected
    message per failed batch. *)
Definition accounts_for (n : nat) (r : EmailSubmissionResult) : Prop :=
  exists ok ko,
    totalBatches r = Some n
    /\ successfulBatches r = Some ok
    /\ failedBatches r = Some ko
    /\ ok + ko = n
    /\ (success r = true <-> ko = 0)
    /\ (ko = 0 -> error r = None /\ batchErrors r = None)
    /\ (0 < ko -> error r <> None
                  /\ exists errors, batchErrors r = Some errors
                                    /\ List.length errors = ko).

(** The summary [sendMultipleBatches] gives of [ko] failures among [n]. *)
Definition failure_summary (ko n : nat) : string :=
  number_to_string ko ++ " of " ++ number_to_string n ++ " batch(es) failed to send".

(** On failure the error of a result is that summary. *)
Definition summarises_failures (n : nat) (r : EmailSubmissionResult) : Prop :=
  forall ko, failedBatches r = Some ko -> 0 < ko ->
             error r = Some (failure_summary ko n).

End Report.

(* ================================================================== *)
(** * Vocabulary of the statements about the CSV snippet               *)
(* ================================================================== *)

Module Csv.
Import JS EmailService.

(** The name contains a comma. *)
Definition has_comma (name : string) : Prop :=
  In ","%char (list_ascii_of_string name).

(** [line] is a record NAME,TYPE,CEB CODE,CONTRIBUTOR TYPE for [req]. *)
Definition csv_record (req : DonorRequest) (line : string) : Prop :=
  exists name_field type_field code_field,
    line = (name_field ++ "," ++ type_field ++ "," ++ code_field ++ ","
              ++ contributorType req)%string
    /\ (has_comma (entityName req) ->
        name_field = (dquote ++ entityName req ++ dquote)%string)
    /\ (~ has_comma (entityName req) -> name_field = entityName req)
    /\ (type_field = "1" <-> contributorType req = "C01")
    /\ (type_field <> "1" -> type_field = "0")
    /\ code_field = match customCode req with
                    | Some (String c custom) => String c custom
                    | _ => suggestedCode req
                    end.

End Csv.

(* ================================================================== *)
(** * Sample inputs of the e-mail service                              *)
(* ================================================================== *)

Module EmailSamples.
Import JS EmailService.

(** A sample run: thirty-one requests for one new entity each, a
    configuration with every key set, and a gateway that rejects every
    second mail. *)
Definition sample_request : DonorRequest :=
  mkRequest new "Example Fund" None "EXF01" "C05" normal
            "A. Contact" "contact@example.org" "new donor" None None None.

Definition sample_submission : RequestSubmission :=
  mkSubmission "SUB-1" (mkSubmitter "A. Contact" "contact@example.org")
               (repeat sample_request 31) None.

Definition sample_config : EmailConfig :=
  mkConfig (Some "public") None (Some "service") (Some "template").

Definition flaky_gateway (n : nat) (_ : EmailContent) : send_outcome :=
  if Nat.even n then Resolved (mkResponse 200 "OK")
  else Rejected (StatusObject "Rate limit exceeded").

Definition fresh_service : service := mkService false [].

(** A new government donor whose name holds a comma and double quotes. *)
Definition quoted_request : DonorRequest :=
  mkRequest new ("Smith, Jones " ++ dquote ++ "and" ++ dquote ++ " Co")
            (Some "SJC1") "SMI01" "C01" high
            "J. Smith" "js@example.org" "new donor" None None None.

(** A submission of two requests, and a gateway whose mail account has to
    be reconnected. *)
Definition small_submission : RequestSubmission :=
  mkSubmission "SUB-2" (mkSubmitter "A. Contact" "contact@example.org")
               [sample_request; quoted_request] (Some "urgent").

Definition expired_gateway (_ : nat) (_ : EmailContent) : send_outcome :=
  Rejected (StatusObject "Invalid grant: please reconnect").

(** A configuration without template, and requests of the three kinds. *)
Definition incomplete_config : EmailConfig :=
  mkConfig (Some "public") (Some "private") (Some "service") None.

Definition removal_request : DonorRequest :=
  mkRequest remove "Old Fund" None "OLD01" "C05" low
            "A. Contact" "contact@example.org" "merged"
            (Some (mkOriginal "Old Fund" "OLD01")) (Some "duplicate") None.

Definition update_request : DonorRequest :=
  mkRequest update "Example Fund" (Some "EXF02") "EXF01" "C05" high
            "A. Contact" "contact@example.org" "renamed"
            (Some (mkOriginal "Example Fnd" "EXF01")) None (Some "typo").

Definition mixed_batch : list DonorRequest :=
  [removal_request; sample_request; update_request; quoted_request].

End EmailSamples.

(* ================================================================== *)
(** * Vocabulary of the statements about the page and the result table *)
(* ================================================================== *)

Module Page.
Import JS DonorsListPage.

(** At most one of the two government filters is on. *)
Definition exclusive (filters : SearchFilters) : Prop :=
  governmentOnly filters && nonGovernmentOnly filters = false.

(** What the chips rely on: [setFilters] stores the two flags it is given. *)
Definition stores_flags (setFilters : SearchFilters -> FiltersPatch -> SearchFilters)
  : Prop :=
  forall prev p,
    (forall b, patch_governmentOnly p = Some b ->
               governmentOnly (setFilters prev p) = b)
    /\ (forall b, patch_nonGovernmentOnly p = Some b ->
                  nonGovernmentOnly (setFilters prev p) = b).

(** The two messages of the result table when there is nothing to list. *)
Definition enter_a_term : SearchResults.view :=
  SearchResults.InfoAlert "Enter a search term to find donors".

Definition no_results : SearchResults.view :=
  SearchResults.InfoAlert "No results found for your search.".

(** The record has a name and a code, both non-empty. *)
Definition has_name_and_code (d : donor) : Prop :=
  exists r name code,
    d = Some r
    /\ NAME r = Some name /\ name <> ""
    /\ CEB_CODE r = Some code /\ code <> "".

(** The query holds no syntax character of the pattern grammar. *)
Definition literal (query : string) : bool :=
  forallb (fun c => negb (RegExp.isSyntaxCharacter c)) (list_ascii_of_string query).

(** The terms a query without syntax characters is read as. *)
Definition chars (q : string) : list RegExp.node :=
  map RegExp.Char (list_ascii_of_string q).

(** Case-insensitive prefix and substring tests, one code unit at a time
    with the regular expression's own case folding. *)
Fixpoint prefix_ci (sub s : string) : bool :=
  match sub, s with
  | EmptyString, _ => true
  | String c sub', String d s' =>
      Ascii.eqb (RegExp.canonicalize c) (RegExp.canonicalize d) && prefix_ci sub' s'
  | String _ _, EmptyString => false
  end.

Fixpoint includes_ci (s sub : string) : bool :=
  prefix_ci sub s ||
  match s with
  | String _ s' => includes_ci s' sub
  | EmptyString => false
  end.

(** The record has a name and a code and [text], case folded, occurs in
    one of them. *)
Definition plain_selects (text : string) (d : donor) : bool :=
  match d with
  | Some r =>
      match NAME r, CEB_CODE r with
      | Some name, Some code =>
          truthy name && truthy code
          && (includes_ci name text || includes_ci code text)
      | _, _ => false
      end
  | None => false
  end.

(** Every code unit of the text has an upper-case form of one code unit
    within the range: none of them is U+00B5, U+00DF or U+00FF. *)
Definition upper_in_range (text : string) : bool :=
  forallb (fun c => negb ((code c =? 181) || (code c =? 223) || (code c =? 255)))
          (list_ascii_of_string text).

(** Every code unit of the development. *)
Definition all_units : list ascii := map ascii_of_nat (seq 0 256).

End Page.

(** The contract of the Partial matcher, in the words of the
    specification: the normalised field contains the normalised query,
    where normalising folds case and the query is trimmed first; a record
    without name or code takes no part. *)
Module PartialContract.
Import JS.

Definition normalize (s : string) : string := toLowerCase s.

Definition contains (field query : string) : bool :=
  includes (normalize field) (normalize (trim query)).

Definition selects (query : string) (d : donor) : bool :=
  match d with
  | Some r =>
      match NAME r, CEB_CODE r with
      | Some name, Some code =>
          truthy name && truthy code && (contains name query || contains code query)
      | _, _ => false
      end
  | None => false
  end.

Definition results_for (query : string) (donors : list donor) : list donor :=
  filter (selects query) donors.

End PartialContract.

(* ================================================================== *)
(** * Sample records                                                   *)
(* ================================================================== *)

Module Samples.

Definition government : ContributorType :=
  mkContributorType (Some "Government") (Some "National governments").

Definition world_bank : DonorWithType :=
  mkDonor (Some "World Bank") (Some "WB01") (Some "C04") None.

Definition united_nations : DonorWithType :=
  mkDonor (Some "United Nations") (Some "UN01") (Some "C04") None.

Definition beta : DonorWithType :=
  mkDonor (Some "Beta") (Some "BET") (Some "C01") (Some government).

Definition zeta : DonorWithType :=
  mkDonor (Some "Zeta") (Some "ZET") (Some "C01") (Some government).

(** A record whose name is missing although its code would match "un". *)
Definition nameless : DonorWithType :=
  mkDonor None (Some "UN99") (Some "C04") None.

Definition catalogue : list donor :=
  [Some world_bank; Some nameless; None; Some united_nations].

(** Two results of a smart search for "zeta", the better one first. *)
Definition zeta_result : SearchResult := mkResult zeta (Some 1%Q) None None.

Definition beta_result : SearchResult := mkResult beta (Some (3 # 4)%Q) None None.

Definition ranked_results : list SearchResult := [zeta_result; beta_result].

End Samples.

(* ================================================================== *)
(** * Vocabulary of the statements about the order of the list         *)
(* ================================================================== *)

(** A collation to run the examples with: the code-unit order of the
    upper-cased strings.  On names made of basic Latin letters a strict
    answer is the alphabetical one. *)
Module Collation.
Import JS.

Fixpoint lex (a b : string) : comparison :=
  match a, b with
  | EmptyString, EmptyString => Eq
  | EmptyString, String _ _ => Lt
  | String _ _, EmptyString => Gt
  | String x a', String y b' =>
      match Nat.compare (code x) (code y) with
      | Eq => lex a' b'
      | c => c
      end
  end.

Definition localeCompare (a b : string) : Z :=
  match lex (toUpperCase a) (toUpperCase b) with
  | Lt => -1
  | Eq => 0
  | Gt => 1
  end%Z.

End Collation.

Module Order.
Import JS DonorsListPage.

(** A comparison function the sort can rely on: swapping the arguments
    swaps a strict answer, and "not after" is transitive. *)
Definition consistent {A : Type} (cmp : A -> A -> Z) : Prop :=
  (forall a b, (0 < cmp a b)%Z -> (cmp b a < 0)%Z)
  /\ (forall a b c, (cmp a b <= 0)%Z -> (cmp b c <= 0)%Z -> (cmp a c <= 0)%Z).

(** [x] may stand before [y] in a list sorted by name: [undefined]
    entries stand last, the others by the collation of their names, a
    missing name counting as the empty one. *)
Definition in_name_order (localeCompare : string -> string -> Z) (x y : donor) : Prop :=
  match x, y with
  | Some a, Some b => (localeCompare (name_or_empty a) (name_or_empty b) <= 0)%Z
  | _, None => True
  | None, Some _ => False
  end.

(** The score a result is ranked by: a result without score counts as 1. *)
Definition ranking_score (r : SearchResult) : Q :=
  match score r with Some q => q | None => 1%Q end.

(** No result of [results] is shown after one with a strictly lower
    score. *)
Definition by_descending_score (results : list SearchResult) (shown : list donor)
  : Prop :=
  forall higher lower i j,
    In higher results -> In lower results ->
    (ranking_score lower < ranking_score higher)%Q ->
    nth_error shown i = Some (Some (item higher)) ->
    nth_error shown j = Some (Some (item lower)) ->
    ~ j < i.

End Order.

(* ================================================================== *)
(** * Vocabulary of the statements about what is sent                  *)
(* ================================================================== *)

Module Delivery.
Import JS EmailService.

(** The elements of a list with their indices. *)
Definition numbered {A : Type} (l : list A) : list (nat * A) :=
  combine (seq 0 (List.length l)) l.

(** The mail of the chunk at index [fst jc] among [total]. *)
Definition batch_mail (submission : RequestSubmission) (total : nat)
           (jc : nat * list DonorRequest) : EmailContent :=
  formatEmailContent submission (snd jc) (fst jc + 1) total.

(** The mails a submission is sent as, in order. *)
Definition expected_mails (submission : RequestSubmission) : list EmailContent :=
  if List.length (requests submission) <=? CHUNK_SIZE
  then [formatEmailContent submission (requests submission) 1 1]
  else map (batch_mail submission
              (List.length (splitIntoChunks (requests submission))))
           (numbered (splitIntoChunks (requests submission))).

(** The entry of [batchErrors] for one chunk: none when the gateway
    accepts its mail, the numbered message when it rejects it.  [before]
    is the number of mails handed over before the first chunk. *)
Definition rejection (gateway : nat -> EmailContent -> send_outcome) (before : nat)
           (submission : RequestSubmission) (total : nat)
           (jc : nat * list DonorRequest) : list string :=
  match gateway (before + fst jc) (batch_mail submission total jc) with
  | Resolved _ => []
  | Rejected e =>
      [("Batch " ++ number_to_string (fst jc + 1) ++ "/" ++ number_to_string total
          ++ " failed: " ++ batch_error_message e)%string]
  end.



(** The order of priorities. *)
Definition priority_rank (p : RequestPriority) : nat :=
  match p with low => 0 | normal => 1 | high => 2 end.

(** The requests of a batch as the mail lists them. *)
Definition batchRequests (batch : list DonorRequest) : list DonorRequest :=
  with_action new batch ++ with_action update batch ++ with_action remove batch.

(** The lines the table of a mail opens with. *)
Definition table_header (batchNumber total count : nat) : list string :=
  (if 1 <? total
   then [ ("BATCH " ++ number_to_string batchNumber ++ " OF "
             ++ number_to_string total)%string;
          ("(" ++ number_to_string count ++ " requests in this batch)")%string;
          "" ]
   else [])
  ++ [ "REQUEST DETAILS:"; "================"; "" ].

(** The seven lines the entry of a request opens with in the table, for
    the request listed as number [number]. *)
Definition action_title (a : RequestAction) : string :=
  match a with new => "NEW" | update => "UPDATE" | remove => "REMOVE" end.

Definition priority_title (p : RequestPriority) : string :=
  match p with low => "LOW" | normal => "NORMAL" | high => "HIGH" end.

Definition entry_head (number : nat) (req : DonorRequest) : list string :=
  [ (number_to_string number ++ ". " ++ action_title (action req) ++ " REQUEST:")%string;
    ("   Entity Name: " ++ entityName req)%string;
    ("   Code: " ++ match customCode req with
                    | Some (String c custom) => String c custom
                    | _ => suggestedCode req
                    end)%string;
    ("   Contributor Type: " ++ contributorType req)%string;
    ("   Priority: " ++ priority_title (priority req))%string;
    ("   Contact: " ++ contactName req ++ " (" ++ contactEmail req ++ ")")%string;
    ("   Justification: " ++ justification req)%string ].

(** The three keys [initialize] asks for are set and not empty. *)
Definition configured (config : EmailConfig) : bool :=
  truthy_opt (publicKey config) && truthy_opt (serviceId config)
  && truthy_opt (templateId config).

(** What [initialize] throws when a key is missing. *)
Definition initialization_error (config : EmailConfig) : thrown :=
  Error ("Email service initialization failed: "
           ++ "EmailJS environment variables not configured: "
           ++ join ", " (missing_variables config)
           ++ ". Set these in Netlify Site Settings > Environment Variables.").

End Delivery.

(* ================================================================== *)
(** * Vocabulary of the statements about rows and links                *)
(* ================================================================== *)

Module Links.
Import JS.

Definition hex_value (c : ascii) : nat :=
  let n := code c in if n <? 58 then n - 48 else n - 55.

(** Reading percent escapes back, for the escapes [encodeURIComponent]
    writes: one byte below 128, or a pair of bytes for U+0080..U+00FF. *)
Fixpoint unescape (s : string) : option string :=
  match s with
  | EmptyString => Some EmptyString
  | String "%" (String h1 (String h2 rest)) =>
      let b := 16 * hex_value h1 + hex_value h2 in
      if b <? 128 then option_map (String (ascii_of_nat b)) (unescape rest)
      else
        match rest with
        | String "%" (String h3 (String h4 rest')) =>
            option_map
              (String (ascii_of_nat ((b - 192) * 64
                                     + (16 * hex_value h3 + hex_value h4 - 128))))
              (unescape rest')
        | _ => None
        end
  | String "%" _ => None
  | String c rest => option_map (String c) (unescape rest)
  end.

End Links.

(* ================================================================== *)
(** * Vocabulary of the statements about the table and the chips       *)
(* ================================================================== *)

Module View.
Import JS.

(** The colours of a score chip, from worst to best. *)
Definition colour_rank (colour : string) : nat :=
  if String.eqb colour "success" then 2
  else if String.eqb colour "warning" then 1
  else 0.

(** A row of the table that shows a record, with the record shown. *)
Definition shows (rw : DonorsListPage.row) (r : DonorWithType) : Prop :=
  exists cells,
    rw = DonorsListPage.DonorRow cells
    /\ NAME r = Some (DonorsListPage.cell_name cells)
    /\ CEB_CODE r = Some (DonorsListPage.cell_code cells)
    /\ DonorsListPage.cell_name cells <> ""
    /\ DonorsListPage.cell_code cells <> "".

(** A catalogue of twenty-five records without contributor type, and a
    record whose name holds a group. *)
Definition numbered_donor (n : nat) : donor :=
  Some (mkDonor (Some ("Donor " ++ number_to_string n)%string)
                (Some ("D" ++ number_to_string n)%string) None None).

Definition long_catalogue : list donor := map numbered_donor (seq 1 25).

Definition bank_uk : DonorWithType :=
  mkDonor (Some "Bank (UK)") (Some "BUK") (Some "C06") None.

End View.

(* ================================================================== *)
(** * The page on the modelled regular expressions                     *)
(* ================================================================== *)

Section PageEquations.
Import JS DonorsListPage.

Lemma basic_filter_eq (regex : RegExp.node) (d : donor) :
  basic_filter regex d
  = match d with
    | None => false
    | Some r =>
        match NAME r, CEB_CODE r with
        | Some name, Some code =>
            if negb (truthy name) || negb (truthy code) then false
            else RegExp.test_match regex name || RegExp.test_match regex code
        | _, _ => false
        end
    end.
Proof. reflexivity. Qed.

Lemma basicSearch_eq (query : string) (donorsWithTypes : list donor) :
  basicSearch query donorsWithTypes
  = match RegExp.compile (trim query) with
    | RegExp.Invalid message =>
        Throws (SyntaxError ("Invalid regular expression: /" ++ trim query ++ "/gi: "
                               ++ message))
    | RegExp.Unsupported => OutOfFragment
    | RegExp.Pattern regex => Returns (filter (basic_filter regex) donorsWithTypes)
    end.
Proof.
  unfold basicSearch, basicSearchWith, new_RegExp.
  destruct (RegExp.compile (trim query)); reflexivity.
Qed.

Lemma displayData_eq (query : string) (useAdvancedSearch : bool)
      (results : list SearchResult) (donorsWithTypes : list donor) :
  displayData query useAdvancedSearch results donorsWithTypes
  = if truthy (trim query) && useAdvancedSearch then
      Returns (map (fun result => Some (item result)) results)
    else if truthy (trim query) then
      basicSearch query donorsWithTypes
    else
      Returns donorsWithTypes.
Proof. reflexivity. Qed.

(** ** The basic search, whatever the regular expressions are *)

Lemma filter_callback_complete {R : Type} (matches : R -> string -> bool)
      (regex : R) (d : donor) :
  filter_callback matches regex d = true -> missing_fields d = false.
Proof.
  destruct d as [r|]; [| discriminate]. unfold filter_callback, missing_fields.
  destruct (NAME r) as [name|]; [| discriminate].
  destruct (CEB_CODE r) as [code|]; [| discriminate]. cbn [truthy_opt].
  destruct (negb (truthy name) || negb (truthy code)); [discriminate | reflexivity].
Qed.

Lemma basicSearchWith_run {R : Type} (construct : string -> completion R)
      (matches : R -> string -> bool) (query : string) (donorsWithTypes : list donor)
      (regex : R) :
  construct (trim query) = Returns regex ->
  basicSearchWith construct matches query donorsWithTypes
  = Returns (filter (filter_callback matches regex) donorsWithTypes).
Proof. intros H. unfold basicSearchWith. rewrite H. reflexivity. Qed.

Lemma basicSearchWith_returns {R : Type} (construct : string -> completion R)
      (matches : R -> string -> bool) (query : string)
      (donorsWithTypes found : list donor) :
  basicSearchWith construct matches query donorsWithTypes = Returns found ->
  exists regex,
    construct (trim query) = Returns regex
    /\ found = filter (filter_callback matches regex) donorsWithTypes.
Proof.
  unfold basicSearchWith.
  destruct (construct (trim query)) as [regex| |]; try discriminate.
  intros H. injection H as <-. exists regex. split; reflexivity.
Qed.

Lemma missing_fields_false (d : donor) :
  missing_fields d = false <-> Page.has_name_and_code d.
Proof.
  unfold missing_fields, Page.has_name_and_code. split.
  - destruct d as [r|]; [| discriminate].
    destruct (NAME r) as [name|] eqn:En; [| discriminate].
    destruct (CEB_CODE r) as [code|] eqn:Ec;
      [| cbn; rewrite orb_true_r; discriminate].
    destruct name as [|c name]; [discriminate |].
    destruct code as [|c' code]; [discriminate |]. intros _.
    exists r, (String c name), (String c' code).
    repeat split; try assumption; discriminate.
  - intros (r & name & code & -> & -> & Hn & -> & Hc).
    destruct name; [contradiction |]. destruct code; [contradiction |]. reflexivity.
Qed.

End PageEquations.

(* ================================================================== *)
(** * Properties of the e-mail service                                 *)
(* ================================================================== *)

Section Chunking.
Import JS EmailService.
Context {A : Type}.
Implicit Types (requests : list A) (chunks : list (list A)).

Lemma chunk_loop_unfold requests i chunks :
  chunk_loop requests i chunks =
  if le_lt_dec (List.length requests) i then chunks
  else chunk_loop requests (i + CHUNK_SIZE)
         (chunks ++ [slice i (i + CHUNK_SIZE) requests]).
Proof.
  rewrite chunk_loop_equation_1.
  destruct (le_lt_dec (List.length requests) i); reflexivity.
Qed.

(** The chunks pushed so far are only carried along by the loop. *)
Lemma chunk_loop_acc requests : forall n i chunks,
  List.length requests - i <= n ->
  chunk_loop requests i chunks = chunks ++ chunk_loop requests i [].
Proof.
  induction n as [|n IH]; intros i chunks Hn;
    rewrite (chunk_loop_unfold requests i chunks), (chunk_loop_unfold requests i []);
    destruct (le_lt_dec (List.length requests) i) as [Hle|Hlt];
    try (rewrite app_nil_r; reflexivity); try lia.
  rewrite (IH (i + CHUNK_SIZE) (chunks ++ _)), (IH (i + CHUNK_SIZE) ([] ++ _));
    try (unfold CHUNK_SIZE; lia).
  rewrite app_assoc. reflexivity.
Qed.

Lemma chunk_loop_done requests i :
  List.length requests <= i -> chunk_loop requests i [] = [].
Proof.
  intros H. rewrite chunk_loop_unfold.
  destruct (le_lt_dec (List.length requests) i); [reflexivity | lia].
Qed.

Lemma chunk_loop_step requests i :
  i < List.length requests ->
  chunk_loop requests i [] =
  slice i (i + CHUNK_SIZE) requests :: chunk_loop requests (i + CHUNK_SIZE) [].
Proof.
  intros H. rewrite chunk_loop_unfold.
  destruct (le_lt_dec (List.length requests) i); [lia |].
  rewrite (chunk_loop_acc requests (List.length requests)) by lia. reflexivity.
Qed.

Lemma slice_length requests i :
  List.length (slice i (i + CHUNK_SIZE) requests)
  = Nat.min CHUNK_SIZE (List.length requests - i).
Proof.
  unfold slice. rewrite length_firstn, length_skipn. lia.
Qed.

Lemma slice_then_rest requests i :
  slice i (i + CHUNK_SIZE) requests ++ skipn (i + CHUNK_SIZE) requests
  = skipn i requests.
Proof.
  unfold slice. replace (i + CHUNK_SIZE - i) with CHUNK_SIZE by lia.
  rewrite Nat.add_comm, <- skipn_skipn. apply firstn_skipn.
Qed.

(** Induction along the loop: [P i cs] for the chunks produced from [i]. *)
Lemma chunk_loop_ind requests (P : nat -> list (list A) -> Prop) :
  (forall i, List.length requests <= i -> P i []) ->
  (forall i, i < List.length requests ->
             P (i + CHUNK_SIZE) (chunk_loop requests (i + CHUNK_SIZE) []) ->
             P i (slice i (i + CHUNK_SIZE) requests
                    :: chunk_loop requests (i + CHUNK_SIZE) [])) ->
  forall i, P i (chunk_loop requests i []).
Proof.
  intros Hdone Hstep.
  assert (H : forall n i, List.length requests - i <= n -> P i (chunk_loop requests i [])).
  { induction n as [|n IH]; intros i Hn.
    - rewrite chunk_loop_done by lia. apply Hdone. lia.
    - destruct (le_lt_dec (List.length requests) i) as [Hle|Hlt].
      + rewrite chunk_loop_done by lia. apply Hdone. lia.
      + rewrite chunk_loop_step by lia. apply Hstep; [lia |].
        apply IH. unfold CHUNK_SIZE. lia. }
  intros i. apply (H (List.length requests - i)). lia.
Qed.

Lemma chunk_loop_concat requests i :
  concat (chunk_loop requests i []) = skipn i requests.
Proof.
  apply (chunk_loop_ind requests (fun i cs => concat cs = skipn i requests)).
  - intros j Hj. simpl. symmetry. apply skipn_all2. exact Hj.
  - intros j Hj IH. simpl. rewrite IH. apply slice_then_rest.
Qed.

Lemma chunk_loop_sizes requests i :
  Forall (fun c => 1 <= List.length c <= CHUNK_SIZE) (chunk_loop requests i []).
Proof.
  apply (chunk_loop_ind requests
           (fun _ cs => Forall (fun c => 1 <= List.length c <= CHUNK_SIZE) cs)).
  - intros; constructor.
  - intros j Hj IH. constructor; [| exact IH].
    rewrite slice_length. unfold CHUNK_SIZE. lia.
Qed.

Lemma chunk_loop_full requests i :
  forall k, S k < List.length (chunk_loop requests i []) ->
            List.length (nth k (chunk_loop requests i []) []) = CHUNK_SIZE.
Proof.
  apply (chunk_loop_ind requests
           (fun _ cs => forall k, S k < List.length cs ->
                                  List.length (nth k cs []) = CHUNK_SIZE)).
  - intros j Hj k Hk. simpl in Hk. lia.
  - intros j Hj IH [|k] Hk; simpl in *.
    + rewrite slice_length.
      destruct (le_lt_dec (List.length requests) (j + CHUNK_SIZE)) as [Hle|Hlt].
      * rewrite chunk_loop_done in Hk by exact Hle. simpl in Hk. lia.
      * lia.
    + apply IH. lia.
Qed.

Lemma chunk_loop_count requests i :
  List.length (chunk_loop requests i []) * CHUNK_SIZE
  < List.length requests - i + CHUNK_SIZE
  /\ List.length requests - i <= List.length (chunk_loop requests i []) * CHUNK_SIZE.
Proof.
  apply (chunk_loop_ind requests
           (fun i cs => List.length cs * CHUNK_SIZE < List.length requests - i + CHUNK_SIZE
                        /\ List.length requests - i <= List.length cs * CHUNK_SIZE)).
  - intros j Hj. simpl. unfold CHUNK_SIZE. lia.
  - intros j Hj IH. simpl. unfold CHUNK_SIZE in *. lia.
Qed.
End Chunking.

Section Submission.
Import JS EmailService Report.
Variable EMAIL_CONFIG : EmailConfig.
Variable emailjs_send : nat -> EmailContent -> send_outcome.
Implicit Types (submission : RequestSubmission) (s : service)
         (r : EmailSubmissionResult).

(** [sendSingleBatch] catches whatever the gateway raises: it always
    returns, with one mail handed over. *)
Lemma sendSingleBatch_run submission batch batchNumber total s :
  let content := formatEmailContent submission batch batchNumber total in
  exists r,
    sendSingleBatch emailjs_send submission batch batchNumber total s
    = (Returns r, posted s content)
    /\ totalBatches r = Some total
    /\ ((success r = true /\ successfulBatches r = Some 1 /\ failedBatches r = Some 0
         /\ error r = None /\ batchErrors r = None)
        \/ (success r = false /\ successfulBatches r = Some 0 /\ failedBatches r = Some 1
            /\ (exists e, error r
                          = Some ("Batch " ++ number_to_string batchNumber ++ "/"
                                    ++ number_to_string total ++ " failed: "
                                    ++ batch_error_message e)%string
                          /\ batchErrors r = Some [batch_error_message e]))).
Proof.
  intros content.
  unfold sendSingleBatch, try_catch, bind, send, ret. fold content.
  destruct (emailjs_send (List.length (outbox s)) content) as [response|e];
    eexists; (split; [reflexivity | split; [reflexivity |]]).
  - left. repeat split.
  - right. repeat split. exists e. split; reflexivity.
Qed.

(** Invariant of the loop of [sendMultipleBatches]: every batch moves
    exactly one of the two counters, and a failure adds one message. *)
Lemma batches_loop_run submission total : forall chunks i t s,
  exists t' s',
    batches_loop emailjs_send submission total i chunks t s = (Returns t', s')
    /\ tally_successful t' + tally_failed t'
       = tally_successful t + tally_failed t + List.length chunks
    /\ tally_failed t <= tally_failed t'
    /\ List.length (tally_errors t')
       = List.length (tally_errors t) + (tally_failed t' - tally_failed t)
    /\ initialized s' = initialized s
    /\ List.length (outbox s') = List.length (outbox s) + List.length chunks.
Proof.
  induction chunks as [|batch rest IH]; intros i t s.
  - exists t, s. simpl. unfold ret. repeat split; lia.
  - destruct (sendSingleBatch_run submission batch (i + 1) total s)
      as (r & Hrun & _ & Hcase).
    cbn [batches_loop]. unfold bind at 1. rewrite Hrun.
    destruct Hcase as [(Hs & _) | (Hs & _ & _ & e & He & _)]; rewrite Hs;
      [| rewrite He; cbn [truthy append]];
      match goal with
      | |- context [batches_loop _ _ _ ?j rest ?u ?v] =>
          destruct (IH j u v) as (t' & s' & Hloop & Hsum & Hmono & Herrs & Hinit & Hout)
      end;
      exists t', s'; rewrite Hloop; cbn in *;
      rewrite ?length_app in *; cbn in *; repeat split; solve [assumption | lia].
Qed.
End Submission.

Section SubmissionReport.
Import JS EmailService Report.
Variable EMAIL_CONFIG : EmailConfig.
Variable emailjs_send : nat -> EmailContent -> send_outcome.
Implicit Types (submission : RequestSubmission) (s : service)
         (r : EmailSubmissionResult).

Lemma sendMultipleBatches_run submission chunks s :
  exists r s',
    sendMultipleBatches emailjs_send submission chunks s = (Returns r, s')
    /\ accounts_for (List.length chunks) r
    /\ summarises_failures (List.length chunks) r
    /\ initialized s' = initialized s
    /\ List.length (outbox s') = List.length (outbox s) + List.length chunks.
Proof.
  destruct (batches_loop_run emailjs_send submission (List.length chunks) chunks 0
              (mkTally 0 0 []) s)
    as (t & s' & Hloop & Hsum & _ & Herrs & Hinit & Hout).
  cbn in Hsum, Herrs.
  unfold sendMultipleBatches, bind. rewrite Hloop. unfold ret.
  eexists; exists s'. split; [reflexivity |].
  split; [| split; [| split; assumption]].
  - exists (tally_successful t), (tally_failed t). cbn.
    do 3 (split; [reflexivity |]). split; [lia |].
    split; [apply Nat.eqb_eq |]. split.
    + intros H. rewrite H in Herrs |- *. apply length_zero_iff_nil in Herrs.
      rewrite Herrs. split; reflexivity.
    + intros H. destruct (tally_failed t =? 0) eqn:E;
        [apply Nat.eqb_eq in E; lia |].
      split; [discriminate |]. exists (tally_errors t).
      destruct (tally_errors t) as [|e errors]; cbn in Herrs |- *;
        [lia | split; [reflexivity | lia]].
  - intros ko Hko Hpos. cbn in Hko |- *. injection Hko as <-.
    destruct (tally_failed t =? 0) eqn:E; [apply Nat.eqb_eq in E; lia | reflexivity].
Qed.


(** With the service ready, [submitRequests] is its [try] block run on
    the initialised service: the [catch] is never entered. *)
Lemma submitRequests_ready submission s :
  ready EMAIL_CONFIG s = true ->
  submitRequests EMAIL_CONFIG emailjs_send submission s
  = (if List.length (requests submission) <=? CHUNK_SIZE
     then sendSingleBatch emailjs_send submission (requests submission) 1 1
     else sendMultipleBatches emailjs_send submission
            (splitIntoChunks (requests submission)))
      (mkService true (outbox s)).
Proof.
  intros Hready. unfold submitRequests, bind at 1.
  assert (Hinit : (if negb (initialized s) then initialize EMAIL_CONFIG else ret tt) s
                  = (Returns tt, mkService true (outbox s))).
  { unfold ready in Hready. destruct s as [[|] out]; cbn in *.
    - reflexivity.
    - unfold initialize, try_catch.
      destruct (truthy_opt (publicKey EMAIL_CONFIG)); [| discriminate].
      destruct (truthy_opt (serviceId EMAIL_CONFIG)); [| discriminate].
      destruct (truthy_opt (templateId EMAIL_CONFIG)); [| discriminate].
      reflexivity. }
  rewrite Hinit. unfold try_catch.
  destruct (List.length (requests submission) <=? CHUNK_SIZE).
  - destruct (sendSingleBatch_run emailjs_send submission (requests submission) 1 1
                (mkService true (outbox s))) as (r & -> & _). reflexivity.
  - destruct (sendMultipleBatches_run submission (splitIntoChunks (requests submission))
                (mkService true (outbox s))) as (r & s' & -> & _). reflexivity.
Qed.

End SubmissionReport.

Section CsvLemmas.
Import JS EmailService Csv.

Lemma prefix_comma (s : string) :
  String.prefix "," s = true <-> exists s', s = String "," s'.
Proof.
  destruct s as [|c s']; cbn [String.prefix].
  - split; [discriminate | intros [? H]; discriminate].
  - destruct (ascii_dec "," c) as [Heq|Hne].
    + subst c. split; [intros _; eexists; reflexivity | intros _; destruct s'; reflexivity].
    + split; [discriminate | intros [? H]; injection H as H _; congruence].
Qed.

Lemma includes_comma (s : string) :
  includes s "," = true <-> has_comma s.
Proof.
  unfold has_comma. induction s as [|c s IH].
  - simpl. split; [discriminate | tauto].
  - change (includes (String c s) ",")
      with (String.prefix "," (String c s) || includes s ",").
    rewrite orb_true_iff, prefix_comma, IH. simpl. split.
    + intros [[s' H] | H]; [left; congruence | right; exact H].
    + intros [<- | H]; [left; eexists; reflexivity | right; exact H].
Qed.

Lemma csvLine_record (req : DonorRequest) : csv_record req (csvLine req).
Proof.
  exists (escapedName (entityName req)),
         (getTypeFromContributorType (contributorType req)),
         (request_code req).
  split; [reflexivity |]. unfold escapedName, getTypeFromContributorType, request_code.
  split; [| split; [| split; [| split]]].
  - intros H. apply includes_comma in H. rewrite H. reflexivity.
  - intros H. destruct (includes (entityName req) ",") eqn:E; [| reflexivity].
    apply includes_comma in E. contradiction.
  - destruct (String.eqb_spec (contributorType req) "C01") as [-> | Hne].
    + tauto.
    + split; [discriminate | contradiction].
  - destruct (String.eqb (contributorType req) "C01"); [congruence | reflexivity].
  - destruct (customCode req) as [[|c custom]|]; reflexivity.
Qed.

Lemma forEach_lines_numbered : forall (reqs : list DonorRequest) (index k : nat) req,
  nth_error reqs k = Some req ->
  nth_error (forEach_lines csv_numbered index reqs) k
  = Some (number_to_string (index + k + 1) ++ ". " ++ csvLine req)%string.
Proof.
  induction reqs as [|r reqs IH]; intros index [|k] req H; simpl in *; try discriminate.
  - injection H as ->. rewrite Nat.add_0_r. reflexivity.
  - rewrite (IH (S index) k req H).
    replace (S index + k + 1) with (index + S k + 1) by lia. reflexivity.
Qed.

Lemma forEach_lines_numbered_length : forall (reqs : list DonorRequest) (index : nat),
  List.length (forEach_lines csv_numbered index reqs) = List.length reqs.
Proof.
  induction reqs as [|r reqs IH]; intros index; simpl; [reflexivity |].
  rewrite IH. reflexivity.
Qed.

End CsvLemmas.

(* ================================================================== *)
(** * Patterns without syntax characters                               *)
(* ================================================================== *)

Section LiteralPatterns.
Import JS RegExp Page.

(** A code unit that is no syntax character is read as itself. *)
Lemma parse_pattern_character (c : ascii) (rest : string) (top : frame)
      (stack : list frame) :
  isSyntaxCharacter c = false ->
  parse (String c rest) top stack = parse rest (push_atom top (Char c)) stack.
Proof.
  destruct c as [b0 b1 b2 b3 b4 b5 b6 b7].
  destruct b0, b1, b2, b3, b4, b5, b6, b7; intros H;
    solve [discriminate H | reflexivity].
Qed.

Lemma parse_literal : forall (q : string) (terms : list node) (st : qstate),
  literal q = true ->
  parse q (mkFrame [] terms st) [] = Pattern (mk_seq (rev terms ++ chars q)).
Proof.
  induction q as [|c q IH]; intros terms st Hlit.
  - cbn. rewrite app_nil_r. reflexivity.
  - unfold literal in Hlit. cbn in Hlit. apply andb_true_iff in Hlit as [Hc Hq].
    apply negb_true_iff in Hc.
    rewrite (parse_pattern_character c q _ _ Hc). unfold push_atom. cbn [alts cur].
    rewrite (IH (Char c :: terms) Atom Hq). cbn. rewrite <- app_assoc. reflexivity.
Qed.

Lemma compile_literal (q : string) :
  literal q = true -> compile q = Pattern (mk_seq (chars q)).
Proof.
  intros H. unfold compile, empty_frame. rewrite (parse_literal q [] NoAtom H).
  reflexivity.
Qed.

(** The matcher of such a pattern strips the pattern, case folded, from
    the front of the subject. *)
Lemma matches_at_literal : forall (q s : string),
  matches_at (mk_seq (chars q)) s = prefix_ci q s.
Proof.
  unfold matches_at.
  induction q as [|c q IH]; intros s; [reflexivity |].
  destruct s as [|d s]; cbn; [reflexivity |].
  destruct (Ascii.eqb (canonicalize c) (canonicalize d)); cbn; [apply IH | reflexivity].
Qed.

Lemma test_match_literal (q : string) : forall s : string,
  test_match (mk_seq (chars q)) s = includes_ci s q.
Proof.
  induction s as [|d s IH]; cbn [test_match includes_ci];
    rewrite matches_at_literal; [reflexivity |].
  rewrite IH. reflexivity.
Qed.

(** ** Case folding: upper-case keys and lower-case keys agree *)

Lemma all_units_complete (c : ascii) : In c all_units.
Proof.
  unfold all_units. rewrite <- (ascii_nat_embedding c).
  apply in_map, in_seq. pose proof (nat_ascii_bounded c). lia.
Qed.

Lemma folding_agrees_on_units :
  forallb (fun a =>
             forallb (fun b =>
                        Bool.eqb (Ascii.eqb (toUpperCase_unit a) (toUpperCase_unit b))
                                 (Ascii.eqb (toLowerCase_unit a) (toLowerCase_unit b)))
                     all_units)
          all_units = true.
Proof. vm_compute. reflexivity. Qed.

Lemma folding_agrees (a b : ascii) :
  Ascii.eqb (canonicalize a) (canonicalize b)
  = Ascii.eqb (toLowerCase_unit a) (toLowerCase_unit b).
Proof.
  pose proof folding_agrees_on_units as H.
  rewrite forallb_forall in H. specialize (H a (all_units_complete a)).
  rewrite forallb_forall in H. specialize (H b (all_units_complete b)).
  apply eqb_prop in H. exact H.
Qed.

Lemma prefix_ci_lowercase : forall q s : string,
  prefix_ci q s = String.prefix (toLowerCase q) (toLowerCase s).
Proof.
  induction q as [|c q IH]; intros s; [destruct s; reflexivity |].
  destruct s as [|d s]; [reflexivity |].
  cbn [prefix_ci toLowerCase map_units String.prefix].
  rewrite folding_agrees, (IH s).
  destruct (ascii_dec (toLowerCase_unit c) (toLowerCase_unit d)) as [E|E].
  - rewrite E, Ascii.eqb_refl. reflexivity.
  - apply Ascii.eqb_neq in E. rewrite E. reflexivity.
Qed.

Lemma includes_ci_lowercase (q : string) : forall s : string,
  includes_ci s q = includes (toLowerCase s) (toLowerCase q).
Proof.
  induction s as [|d s IH].
  - cbn [includes_ci includes toLowerCase map_units].
    rewrite prefix_ci_lowercase. reflexivity.
  - cbn [includes_ci]. rewrite prefix_ci_lowercase, IH. reflexivity.
Qed.

End LiteralPatterns.

(* ================================================================== *)
(** * Sorting                                                          *)
(* ================================================================== *)

Section SortLemmas.
Import ArraySort Order.
Context {A : Type} (comparefn : A -> A -> Z).
Hypothesis comparefn_consistent : consistent comparefn.

Let before (x y : option A) : Prop := (SortCompare comparefn x y <= 0)%Z.

Lemma before_or_after x y : ~ before x y -> before y x.
Proof.
  unfold before. destruct x as [a|], y as [b|]; cbn; try lia.
  intros H. destruct comparefn_consistent as [Hswap _].
  specialize (Hswap a b). lia.
Qed.

Lemma before_trans x y z : before x y -> before y z -> before x z.
Proof.
  unfold before. destruct x as [a|], y as [b|], z as [c|]; cbn; try lia.
  destruct comparefn_consistent as [_ Htrans]. apply Htrans.
Qed.

Lemma insert_permutation x : forall l, Permutation (x :: l) (insert comparefn x l).
Proof.
  induction l as [|y l IH]; cbn; [reflexivity |].
  destruct (SortCompare comparefn x y <=? 0)%Z; [reflexivity |].
  rewrite perm_swap. apply perm_skip, IH.
Qed.

Lemma sort_permutation : forall l, Permutation l (sort comparefn l).
Proof.
  induction l as [|x l IH]; cbn; [reflexivity |].
  rewrite <- insert_permutation. apply perm_skip, IH.
Qed.

Lemma insert_sorted x : forall l,
  StronglySorted before l -> StronglySorted before (insert comparefn x l).
Proof.
  induction l as [|y l IH]; intros Hsorted; cbn.
  - repeat constructor.
  - apply StronglySorted_inv in Hsorted as [Htail Hhead].
    destruct (SortCompare comparefn x y <=? 0)%Z eqn:E.
    + apply Z.leb_le in E. constructor; [constructor; assumption |].
      constructor; [exact E |].
      eapply Forall_impl; [| exact Hhead]. intros z Hz.
      apply (before_trans x y z E Hz).
    + apply Z.leb_gt in E. constructor; [apply IH, Htail |].
      apply (Permutation_Forall (insert_permutation x l)).
      constructor; [| exact Hhead].
      apply before_or_after. unfold before. lia.
Qed.

Lemma sort_sorted : forall l, StronglySorted before (sort comparefn l).
Proof.
  induction l as [|x l IH]; cbn; [constructor | apply insert_sorted, IH].
Qed.

End SortLemmas.

Section CollationLemmas.
Import JS Collation Order.

Lemma lex_swap : forall a b, lex b a = CompOpp (lex a b).
Proof.
  induction a as [|x a IH]; intros [|y b]; cbn; try reflexivity.
  rewrite (Nat.compare_antisym (code x) (code y)).
  destruct (Nat.compare (code x) (code y)); cbn; [apply IH | reflexivity | reflexivity].
Qed.

Lemma lex_not_after_trans : forall a b c,
  lex a b <> Gt -> lex b c <> Gt -> lex a c <> Gt.
Proof.
  induction a as [|x a IH]; intros [|y b] [|z c]; cbn; try congruence.
  destruct (Nat.compare_spec (code x) (code y)) as [Exy|Lxy|Gxy];
    destruct (Nat.compare_spec (code y) (code z)) as [Eyz|Lyz|Gyz];
    destruct (Nat.compare_spec (code x) (code z)) as [Exz|Lxz|Gxz];
    try congruence; try lia.
  apply IH.
Qed.

Lemma localeCompare_consistent : consistent localeCompare.
Proof.
  split.
  - intros a b. unfold localeCompare.
    rewrite (lex_swap (toUpperCase a) (toUpperCase b)).
    destruct (lex (toUpperCase a) (toUpperCase b)); cbn; lia.
  - intros a b c. unfold localeCompare.
    pose proof (lex_not_after_trans (toUpperCase a) (toUpperCase b) (toUpperCase c)) as H.
    destruct (lex (toUpperCase a) (toUpperCase b)),
             (lex (toUpperCase b) (toUpperCase c)),
             (lex (toUpperCase a) (toUpperCase c));
      intros; try lia; exfalso; apply H; congruence.
Qed.

End CollationLemmas.

(* ================================================================== *)
(** * What the service hands to the gateway                            *)
(* ================================================================== *)

Section DeliveryLemmas.
Import JS EmailService Report Delivery.
Variable EMAIL_CONFIG : EmailConfig.
Variable emailjs_send : nat -> EmailContent -> send_outcome.
Implicit Types (submission : RequestSubmission) (s : service).

(** [sendSingleBatch], by the answer of the gateway. *)
Lemma sendSingleBatch_outcome submission batch batchNumber total s :
  let content := formatEmailContent submission batch batchNumber total in
  sendSingleBatch emailjs_send submission batch batchNumber total s
  = (Returns
       match emailjs_send (List.length (outbox s)) content with
       | Resolved response =>
           mkSubmissionResult true (Some (submissionId submission)) None
             (Some (Resolved response)) (Some total) (Some 1) (Some 0) None
       | Rejected e =>
           mkSubmissionResult false None
             (Some ("Batch " ++ number_to_string batchNumber ++ "/"
                      ++ number_to_string total ++ " failed: "
                      ++ batch_error_message e)%string)
             (Some (Rejected e)) (Some total) (Some 0) (Some 1)
             (Some [batch_error_message e])
       end,
     posted s content).
Proof.
  intros content. unfold sendSingleBatch, try_catch, bind, send, ret. fold content.
  destruct (emailjs_send (List.length (outbox s)) content); reflexivity.
Qed.

(** The loop hands over the mail of every chunk, in order, whatever the
    gateway answers, and collects the message of every rejection. *)
Lemma batches_loop_delivers submission total before : forall chunks i t s,
  List.length (outbox s) = before + i ->
  exists t' s',
    batches_loop emailjs_send submission total i chunks t s = (Returns t', s')
    /\ outbox s'
       = outbox s ++ map (batch_mail submission total)
                         (combine (seq i (List.length chunks)) chunks)
    /\ tally_errors t'
       = tally_errors t
           ++ flat_map (rejection emailjs_send before submission total)
                       (combine (seq i (List.length chunks)) chunks)
    /\ initialized s' = initialized s.
Proof.
  induction chunks as [|batch rest IH]; intros i t s Hcalls.
  - exists t, s. cbn. unfold ret. rewrite !app_nil_r. auto.
  - cbn [batches_loop]. unfold bind at 1.
    rewrite sendSingleBatch_outcome.
    set (content := formatEmailContent submission batch (i + 1) total).
    assert (Hnext : List.length (outbox (posted s content)) = before + S i).
    { cbn. rewrite length_app. cbn. lia. }
    assert (Hrej : rejection emailjs_send before submission total (i, batch)
                   = match emailjs_send (List.length (outbox s)) content with
                     | Resolved _ => []
                     | Rejected e =>
                         [("Batch " ++ number_to_string (i + 1) ++ "/"
                             ++ number_to_string total ++ " failed: "
                             ++ batch_error_message e)%string]
                     end).
    { unfold rejection, batch_mail. cbn [fst snd]. rewrite Hcalls. reflexivity. }
    cbn [List.length seq combine map flat_map]. rewrite Hrej.
    change (batch_mail submission total (i, batch)) with content.
    destruct (emailjs_send (List.length (outbox s)) content) as [response|e];
      cbn [success error truthy append];
      match goal with
      | |- context [batches_loop _ _ _ _ rest ?u ?v] =>
          destruct (IH (S i) u v Hnext) as (t' & s' & Hloop & Hout & Herr & Hinit)
      end;
      exists t', s'; rewrite Hloop; (split; [reflexivity |]);
      rewrite Hout, Herr, Hinit; cbn [posted outbox initialized tally_errors];
      rewrite <- ?app_assoc; auto.
Qed.


Lemma splitIntoChunks_count {A : Type} (l : list A) :
  List.length (splitIntoChunks l) = (List.length l + 14) / 15.
Proof.
  unfold splitIntoChunks. destruct (List.length l =? 0) eqn:E.
  - apply Nat.eqb_eq in E. rewrite E. reflexivity.
  - pose proof (chunk_loop_count l 0) as [Hlt Hle]. unfold CHUNK_SIZE in *.
    rewrite Nat.sub_0_r in *.
    apply (Nat.div_unique _ 15 _
                       (List.length l + 14 - List.length (chunk_loop l 0 []) * 15)); lia.
Qed.

Lemma initialize_run s :
  initialize EMAIL_CONFIG s
  = if configured EMAIL_CONFIG then (Returns tt, mkService true (outbox s))
    else (Throws (initialization_error EMAIL_CONFIG), s).
Proof.
  unfold initialize, try_catch, configured, initialization_error, throw.
  destruct (truthy_opt (publicKey EMAIL_CONFIG)),
           (truthy_opt (serviceId EMAIL_CONFIG)),
           (truthy_opt (templateId EMAIL_CONFIG)); reflexivity.
Qed.

(** ** The lines of the table *)

Lemma forEach_lines_concat {A : Type} (f : nat -> A -> list string) :
  forall (l : list A) (index : nat),
    forEach_lines f index l
    = concat (map (fun p => f (fst p) (snd p))
                  (combine (seq index (List.length l)) l)).
Proof.
  induction l as [|x l IH]; intros index; [reflexivity |].
  cbn [forEach_lines List.length seq combine map concat fst snd].
  rewrite (IH (S index)). reflexivity.
Qed.

Lemma nth_error_numbered {A : Type} : forall (l : list A) (index k : nat) (x : A),
  nth_error l k = Some x ->
  nth_error (combine (seq index (List.length l)) l) k = Some (index + k, x).
Proof.
  induction l as [|y l IH]; intros index [|k] x H; cbn in H |- *; try discriminate H.
  - injection H as ->. rewrite Nat.add_0_r. reflexivity.
  - rewrite (IH (S index) k x H). f_equal. f_equal. lia.
Qed.

Lemma request_lines_head (index : nat) (req : DonorRequest) :
  exists more, request_lines index req = entry_head (index + 1) req ++ more ++ [""].
Proof.
  unfold request_lines, entry_head.
  assert (Ha : toUpperCase (action_string (action req)) = action_title (action req))
    by (destruct (action req); reflexivity).
  assert (Hp : toUpperCase (priority_string (priority req))
               = priority_title (priority req))
    by (destruct (priority req); reflexivity).
  assert (Hc : request_code req
               = match customCode req with
                 | Some (String c custom) => String c custom
                 | _ => suggestedCode req
                 end)
    by (unfold request_code; destruct (customCode req) as [[|c custom]|]; reflexivity).
  rewrite Ha, Hp, Hc. cbn [app]. eexists.
  do 7 f_equal. rewrite !app_assoc. reflexivity.
Qed.

End DeliveryLemmas.

(* ================================================================== *)
(** * Pages of a list                                                  *)
(* ================================================================== *)

Section Pages.
Import JS.
Context {A : Type}.
Variable size : nat.
Hypothesis size_positive : 0 < size.
Implicit Types (l : list A) (page k : nat).











End Pages.

(* ================================================================== *)
(** * Trimming, and patterns that match the empty string               *)
(* ================================================================== *)

Section Trimming.
Import JS.

Lemma trimStart_front (s : string) :
  trimStart s = "" \/ exists c t, trimStart s = String c t /\ isWhiteSpace c = false.
Proof.
  induction s as [|c s IH]; cbn; [left; reflexivity |].
  destruct (isWhiteSpace c) eqn:E; [exact IH |].
  right. exists c, s. split; [reflexivity | exact E].
Qed.

Lemma trimEnd_cons (c : ascii) (s : string) :
  trimEnd (String c s)
  = match trimEnd s with
    | EmptyString => if isWhiteSpace c then EmptyString else String c EmptyString
    | String d t => String c (String d t)
    end.
Proof. reflexivity. Qed.

Lemma trimEnd_idempotent (s : string) : trimEnd (trimEnd s) = trimEnd s.
Proof.
  induction s as [|c s IH]; [reflexivity |]. rewrite trimEnd_cons.
  destruct (trimEnd s) as [|d t] eqn:E.
  - destruct (isWhiteSpace c) eqn:Ec; [reflexivity |]. cbn. rewrite Ec. reflexivity.
  - rewrite trimEnd_cons, IH. reflexivity.
Qed.

Lemma trimEnd_keeps_front (c : ascii) (s : string) :
  isWhiteSpace c = false -> exists t, trimEnd (String c s) = String c t.
Proof.
  intros Hc. cbn [trimEnd]. destruct (trimEnd s) as [|d t].
  - rewrite Hc. eexists. reflexivity.
  - eexists. reflexivity.
Qed.

Lemma trim_idempotent (s : string) : trim (trim s) = trim s.
Proof.
  unfold trim. destruct (trimStart_front s) as [-> | (c & t & -> & Hc)].
  - reflexivity.
  - destruct (trimEnd_keeps_front c t Hc) as [u Hu].
    rewrite Hu at 1. cbn [trimStart]. rewrite Hc, <- Hu. apply trimEnd_idempotent.
Qed.

End Trimming.

Section EmptyMatches.
Import JS RegExp.

Let anything : string -> bool := fun _ => true.

Lemma repeat_matcher_weaken (m : string -> (string -> bool) -> bool) :
  (forall s k k', (forall u, k u = true -> k' u = true) ->
                  m s k = true -> m s k' = true) ->
  forall fuel s k k',
    (forall u, k u = true -> k' u = true) ->
    repeat_matcher m fuel s k = true -> repeat_matcher m fuel s k' = true.
Proof.
  intros Hm. induction fuel as [|fuel IH]; intros s k k' Hk H;
    cbn [repeat_matcher] in H |- *.
  - rewrite orb_false_r in *. apply Hk, H.
  - apply orb_true_iff in H as [H | H]; [rewrite (Hk s H); reflexivity |].
    apply orb_true_iff. right.
    eapply Hm; [| exact H]. intros u Hu. cbn beta in Hu |- *.
    apply andb_true_iff in Hu as [Hlen Hu]. rewrite Hlen.
    apply (IH u k k' Hk Hu).
Qed.

(** A continuation that accepts more lets the matcher accept more. *)
Lemma matcher_weaken : forall (r : node) (s : string) (k k' : string -> bool),
  (forall u, k u = true -> k' u = true) ->
  matcher r s k = true -> matcher r s k' = true.
Proof.
  induction r as [|c| |a IHa b IHb|a IHa b IHb|a IHa|a IHa|a IHa];
    intros s k k' Hk H; cbn [matcher] in H |- *.
  - apply Hk, H.
  - destruct s as [|d s]; [discriminate H |].
    apply andb_true_iff in H as [Hc H]. rewrite Hc, (Hk s H). reflexivity.
  - destruct s as [|d s]; [discriminate H |].
    apply andb_true_iff in H as [Hc H]. rewrite Hc, (Hk s H). reflexivity.
  - apply (IHa s _ _ (fun u Hu => IHb u k k' Hk Hu) H).
  - apply orb_true_iff in H as [H | H];
      [rewrite (IHa s k k' Hk H) | rewrite (IHb s k k' Hk H), orb_true_r]; reflexivity.
  - apply (repeat_matcher_weaken (matcher a) IHa _ s k k' Hk H).
  - apply (IHa s _ _ (fun u Hu => repeat_matcher_weaken (matcher a) IHa _ u k k' Hk Hu) H).
  - apply orb_true_iff in H as [H | H];
      [rewrite (IHa s k k' Hk H) | rewrite (Hk s H), orb_true_r]; reflexivity.
Qed.

(** On the empty subject only the empty remainder is handed on. *)
Lemma matcher_empty_subject : forall (r : node) (k : string -> bool),
  matcher r "" k = true -> k "" = true.
Proof.
  induction r as [|c| |a IHa b IHb|a IHa b IHb|a IHa|a IHa|a IHa];
    intros k H; cbn [matcher] in H; try discriminate H.
  - exact H.
  - apply IHb, (IHa _ H).
  - apply orb_true_iff in H as [H | H]; [apply IHa, H | apply IHb, H].
  - cbn in H. rewrite orb_false_r in H. exact H.
  - apply IHa in H. cbn in H. rewrite orb_false_r in H. exact H.
  - apply orb_true_iff in H as [H | H]; [apply IHa, H | exact H].
Qed.

(** A pattern that matches the empty string matches at every place. *)
Lemma matcher_nullable : forall (r : node),
  matcher r "" anything = true ->
  forall (s : string) (k : string -> bool), k s = true -> matcher r s k = true.
Proof.
  induction r as [|c| |a IHa b IHb|a IHa b IHb|a IHa|a IHa|a IHa];
    intros H s k Hk; cbn [matcher] in H |- *; try discriminate H.
  - exact Hk.
  - assert (Hb : matcher b "" anything = true) by apply (matcher_empty_subject a _ H).
    assert (Ha : matcher a "" anything = true)
      by apply (matcher_weaken a "" _ anything (fun _ _ => eq_refl) H).
    apply (IHa Ha). apply (IHb Hb), Hk.
  - apply orb_true_iff in H as [H | H];
      [rewrite (IHa H s k Hk) | rewrite (IHb H s k Hk), orb_true_r]; reflexivity.
  - destruct (String.length s); cbn [repeat_matcher]; rewrite Hk; reflexivity.
  - assert (Ha : matcher a "" anything = true)
      by apply (matcher_weaken a "" _ anything (fun _ _ => eq_refl) H).
    apply (IHa Ha).
    destruct (String.length s); cbn [repeat_matcher]; rewrite Hk; reflexivity.
  - rewrite Hk. apply orb_true_r.
Qed.

Lemma test_match_nullable (r : node) (s : string) :
  matches_at r "" = true -> test_match r s = true.
Proof.
  intros H. destruct s as [|c s]; cbn [test_match]; unfold matches_at in *;
    rewrite (matcher_nullable r H _ _ eq_refl); reflexivity.
Qed.

End EmptyMatches.

(* ================================================================== *)
(** * Queries in plain text                                            *)
(* ================================================================== *)

Section PlainQueries.
Import JS RegExp Page.

Lemma units_forall (P : ascii -> bool) :
  forallb P all_units = true -> forall c, P c = true.
Proof.
  intros H c. rewrite forallb_forall in H. apply H, all_units_complete.
Qed.

Lemma append_empty (s : string) : (s ++ "")%string = s.
Proof. induction s as [|c s IH]; cbn; [| rewrite IH]; reflexivity. Qed.

Lemma literal_append (p q : string) :
  literal (p ++ q) = literal p && literal q.
Proof.
  unfold literal. induction p as [|c p IH];
    cbn [append list_ascii_of_string forallb]; [reflexivity |].
  rewrite IH, andb_assoc. reflexivity.
Qed.

(** A plain prefix of a pattern is read as its characters. *)
Lemma parse_plain_prefix : forall (p rest : string) (top : frame) (stack : list frame),
  literal p = true ->
  parse (p ++ rest) top stack
  = parse rest
      (mkFrame (alts top) (rev (chars p) ++ cur top)
               (match p with EmptyString => qst top | String _ _ => Atom end))
      stack.
Proof.
  induction p as [|c p IH]; intros rest top stack Hlit.
  - destruct top; reflexivity.
  - unfold literal in Hlit. cbn [list_ascii_of_string forallb] in Hlit.
    apply andb_true_iff in Hlit as [Hc Hp].
    apply negb_true_iff in Hc. cbn [append].
    rewrite (parse_pattern_character c _ _ _ Hc), (IH rest _ stack Hp).
    unfold push_atom. cbn [alts cur qst chars list_ascii_of_string map rev].
    rewrite <- app_assoc. cbn [app]. destruct p; reflexivity.
Qed.

Lemma parse_plain_in_group (p : string) (top f : frame) (stack : list frame) :
  literal p = true -> parse p top (f :: stack) = Invalid "Unterminated group".
Proof.
  intros Hlit. rewrite <- (append_empty p), (parse_plain_prefix p "" _ _ Hlit).
  reflexivity.
Qed.

Lemma parse_open_group (rest : string) (top : frame) (stack : list frame) :
  literal rest = true ->
  parse (String "(" rest) top stack = parse rest empty_frame (top :: stack).
Proof.
  destruct rest as [|c rest]; [reflexivity |].
  unfold literal. cbn [list_ascii_of_string forallb]. intros H.
  apply andb_true_iff in H as [Hc _]. apply negb_true_iff in Hc.
  destruct c as [b0 b1 b2 b3 b4 b5 b6 b7].
  destruct b0, b1, b2, b3, b4, b5, b6, b7;
    solve [discriminate Hc | reflexivity].
Qed.

Lemma compile_unterminated (p p' : string) :
  literal p = true -> literal p' = true ->
  compile (p ++ String "(" p') = Invalid "Unterminated group".
Proof.
  intros Hp Hp'. unfold compile.
  rewrite (parse_plain_prefix p _ _ _ Hp), (parse_open_group p' _ _ Hp').
  apply parse_plain_in_group, Hp'.
Qed.

Lemma compile_unmatched (p rest : string) :
  literal p = true ->
  compile (p ++ String ")" rest) = Invalid "Unmatched ')'".
Proof.
  intros Hp. unfold compile. rewrite (parse_plain_prefix p _ _ _ Hp). reflexivity.
Qed.

(** The basic search with a plain query, by the folded substring test. *)
Lemma plain_search (query : string) (results : list SearchResult)
      (donorsWithTypes : list donor) :
  truthy (trim query) = true ->
  literal (trim query) = true ->
  DonorsListPage.displayData query false results donorsWithTypes
  = Returns (filter (plain_selects (trim query)) donorsWithTypes).
Proof.
  intros Hquery Hlit.
  rewrite displayData_eq, basicSearch_eq. rewrite Hquery.
  cbn [andb]. rewrite (compile_literal _ Hlit). f_equal.
  apply filter_ext. intros [r|]; [| reflexivity].
  rewrite basic_filter_eq. unfold plain_selects.
  destruct (NAME r) as [name|]; [| reflexivity].
  destruct (CEB_CODE r) as [code|]; [| reflexivity].
  rewrite !test_match_literal.
  destruct (truthy name), (truthy code); reflexivity.
Qed.

(** ** Substrings under case folding *)

Lemma prefix_ci_shorter : forall p more s : string,
  prefix_ci (p ++ more) s = true -> prefix_ci p s = true.
Proof.
  induction p as [|c p IH]; intros more s H; [reflexivity |].
  destruct s as [|d s]; cbn [append prefix_ci] in H |- *; [discriminate H |].
  apply andb_true_iff in H as [Hc H]. rewrite Hc. apply (IH more s H).
Qed.

Lemma includes_ci_shorter (p more : string) : forall s : string,
  includes_ci s (p ++ more) = true -> includes_ci s p = true.
Proof.
  induction s as [|d s IH]; cbn [includes_ci]; intros H;
    apply orb_true_iff in H as [H | H].
  - rewrite (prefix_ci_shorter p more _ H). reflexivity.
  - discriminate H.
  - rewrite (prefix_ci_shorter p more _ H). reflexivity.
  - rewrite (IH H). apply orb_true_r.
Qed.

Lemma prefix_ci_cons (c d : ascii) (p s : string) :
  prefix_ci (String c p) (String d s)
  = Ascii.eqb (canonicalize c) (canonicalize d) && prefix_ci p s.
Proof. reflexivity. Qed.

Lemma prefix_ci_trimEnd : forall s : string, prefix_ci (trimEnd s) s = true.
Proof.
  induction s as [|c s IH]; [reflexivity |]. rewrite trimEnd_cons.
  revert IH. destruct (trimEnd s) as [|d t]; intros IH.
  - destruct (isWhiteSpace c); [reflexivity |].
    rewrite prefix_ci_cons, Ascii.eqb_refl. reflexivity.
  - rewrite prefix_ci_cons, Ascii.eqb_refl, IH. reflexivity.
Qed.

Lemma includes_ci_after_trimStart (sub : string) : forall s : string,
  prefix_ci sub (trimStart s) = true -> includes_ci s sub = true.
Proof.
  induction s as [|c s IH]; intros H.
  - cbn in H |- *. rewrite H. reflexivity.
  - cbn [trimStart] in H. cbn [includes_ci].
    destruct (isWhiteSpace c); [rewrite (IH H); apply orb_true_r |].
    rewrite H. reflexivity.
Qed.

Lemma includes_ci_trim (s : string) : includes_ci s (trim s) = true.
Proof. apply includes_ci_after_trimStart, prefix_ci_trimEnd. Qed.

(** ** Upper and lower case of a query *)

Lemma trimStart_map (f : ascii -> ascii) :
  (forall c, isWhiteSpace (f c) = isWhiteSpace c) ->
  forall s, trimStart (map_units f s) = map_units f (trimStart s).
Proof.
  intros Hf. induction s as [|c s IH]; [reflexivity |].
  cbn [map_units trimStart]. rewrite Hf. destruct (isWhiteSpace c); [exact IH | reflexivity].
Qed.

Lemma trimEnd_map (f : ascii -> ascii) :
  (forall c, isWhiteSpace (f c) = isWhiteSpace c) ->
  forall s, trimEnd (map_units f s) = map_units f (trimEnd s).
Proof.
  intros Hf. induction s as [|c s IH]; [reflexivity |].
  cbn [map_units]. rewrite !trimEnd_cons, IH, Hf.
  destruct (trimEnd s); [destruct (isWhiteSpace c) |]; reflexivity.
Qed.

Lemma trim_map (f : ascii -> ascii) :
  (forall c, isWhiteSpace (f c) = isWhiteSpace c) ->
  forall s, trim (map_units f s) = map_units f (trim s).
Proof.
  intros Hf s. unfold trim. rewrite (trimStart_map f Hf), (trimEnd_map f Hf).
  reflexivity.
Qed.

Lemma literal_map (f : ascii -> ascii) :
  (forall c, isSyntaxCharacter (f c) = isSyntaxCharacter c) ->
  forall s, literal (map_units f s) = literal s.
Proof.
  intros Hf. unfold literal. induction s as [|c s IH]; [reflexivity |].
  cbn [map_units list_ascii_of_string forallb]. rewrite Hf, IH. reflexivity.
Qed.

Lemma prefix_ci_map (f : ascii -> ascii) :
  (forall c, canonicalize (f c) = canonicalize c) ->
  forall q s, prefix_ci (map_units f q) s = prefix_ci q s.
Proof.
  intros Hf. induction q as [|c q IH]; intros s; [reflexivity |].
  destruct s as [|d s]; cbn [map_units prefix_ci]; [reflexivity |].
  rewrite Hf, IH. reflexivity.
Qed.

Lemma includes_ci_map (f : ascii -> ascii) :
  (forall c, canonicalize (f c) = canonicalize c) ->
  forall q s, includes_ci s (map_units f q) = includes_ci s q.
Proof.
  intros Hf q. induction s as [|d s IH]; cbn [includes_ci];
    rewrite (prefix_ci_map f Hf); [reflexivity |].
  rewrite IH. reflexivity.
Qed.

Lemma truthy_map (f : ascii -> ascii) (s : string) :
  truthy (map_units f s) = truthy s.
Proof. destruct s; reflexivity. Qed.

(** A mapping of code units that keeps white space, syntax characters and
    the folded form does not change what a plain query selects. *)
Lemma plain_search_map (f : ascii -> ascii) :
  (forall c, isWhiteSpace (f c) = isWhiteSpace c) ->
  (forall c, isSyntaxCharacter (f c) = isSyntaxCharacter c) ->
  (forall c, canonicalize (f c) = canonicalize c) ->
  forall (query : string) (results : list SearchResult) (donorsWithTypes : list donor),
    truthy (trim query) = true ->
    literal (trim query) = true ->
    DonorsListPage.displayData (map_units f query) false results donorsWithTypes
    = DonorsListPage.displayData query false results donorsWithTypes.
Proof.
  intros Hw Hs Hc query results donors Hquery Hlit.
  rewrite (plain_search query results donors Hquery Hlit).
  assert (Ht : trim (map_units f query) = map_units f (trim query))
    by apply (trim_map f Hw).
  rewrite (plain_search (map_units f query));
    [| rewrite Ht, truthy_map; exact Hquery
     | rewrite Ht, (literal_map f Hs); exact Hlit].
  rewrite Ht. f_equal. apply filter_ext. intros [r|]; [| reflexivity].
  unfold plain_selects.
  destruct (NAME r) as [name|]; [| reflexivity].
  destruct (CEB_CODE r) as [code|]; [| reflexivity].
  rewrite !(includes_ci_map f Hc). reflexivity.
Qed.

Lemma toUpperCase_in_range : forall text : string,
  upper_in_range text = true -> toUpperCase text = map_units toUpperCase_unit text.
Proof.
  unfold upper_in_range. induction text as [|c text IH]; [reflexivity |].
  cbn [list_ascii_of_string forallb toUpperCase map_units]. intros H.
  apply andb_true_iff in H as [Hc Htext]. rewrite (IH Htext).
  unfold toUpperCase_units.
  destruct (code c =? 223); [rewrite orb_true_r in Hc; discriminate Hc | reflexivity].
Qed.

Lemma upper_keeps :
  (forall c, isWhiteSpace (toUpperCase_unit c) = isWhiteSpace c)
  /\ (forall c, isSyntaxCharacter (toUpperCase_unit c) = isSyntaxCharacter c)
  /\ (forall c, canonicalize (toUpperCase_unit c) = canonicalize c).
Proof.
  split; [| split]; intros c.
  - apply eqb_prop.
    apply (units_forall (fun c => Bool.eqb (isWhiteSpace (toUpperCase_unit c))
                                           (isWhiteSpace c))).
    vm_compute. reflexivity.
  - apply eqb_prop.
    apply (units_forall (fun c => Bool.eqb (isSyntaxCharacter (toUpperCase_unit c))
                                           (isSyntaxCharacter c))).
    vm_compute. reflexivity.
  - apply Ascii.eqb_eq.
    apply (units_forall (fun c => Ascii.eqb (canonicalize (toUpperCase_unit c))
                                            (canonicalize c))).
    vm_compute. reflexivity.
Qed.

Lemma lower_keeps :
  (forall c, isWhiteSpace (toLowerCase_unit c) = isWhiteSpace c)
  /\ (forall c, isSyntaxCharacter (toLowerCase_unit c) = isSyntaxCharacter c)
  /\ (forall c, canonicalize (toLowerCase_unit c) = canonicalize c).
Proof.
  split; [| split]; intros c.
  - apply eqb_prop.
    apply (units_forall (fun c => Bool.eqb (isWhiteSpace (toLowerCase_unit c))
                                           (isWhiteSpace c))).
    vm_compute. reflexivity.
  - apply eqb_prop.
    apply (units_forall (fun c => Bool.eqb (isSyntaxCharacter (toLowerCase_unit c))
                                           (isSyntaxCharacter c))).
    vm_compute. reflexivity.
  - apply Ascii.eqb_eq.
    apply (units_forall (fun c => Ascii.eqb (canonicalize (toLowerCase_unit c))
                                            (canonicalize c))).
    vm_compute. reflexivity.
Qed.

End PlainQueries.

(* ================================================================== *)
(** * Percent escapes                                                  *)
(* ================================================================== *)

Section LinksLemmas.
Import JS Links.

Lemma unescape_unit (c : ascii) (s : string) :
  unescape (encode_unit c ++ s) = option_map (String c) (unescape s).
Proof.
  destruct c as [b0 b1 b2 b3 b4 b5 b6 b7].
  destruct b0, b1, b2, b3, b4, b5, b6, b7; reflexivity.
Qed.

Lemma append_assoc (a b c : string) :
  ((a ++ b) ++ c)%string = (a ++ (b ++ c))%string.
Proof. induction a as [|x a IH]; cbn; [| rewrite IH]; reflexivity. Qed.

Lemma unescape_encodeURIComponent : forall s : string,
  unescape (encodeURIComponent s) = Some s.
Proof.
  induction s as [|c s IH]; [reflexivity |].
  cbn [encodeURIComponent]. rewrite unescape_unit, IH. reflexivity.
Qed.

Lemma encodeURIComponent_injective (s t : string) :
  encodeURIComponent s = encodeURIComponent t -> s = t.
Proof.
  intros H. apply (f_equal unescape) in H.
  rewrite !unescape_encodeURIComponent in H. congruence.
Qed.

Lemma append_injective (p : string) : forall s t : string,
  (p ++ s)%string = (p ++ t)%string -> s = t.
Proof.
  induction p as [|c p IH]; intros s t H; [exact H |].
  injection H as H. apply IH, H.
Qed.

End LinksLemmas.

(* ================================================================== *)
(** * Sorting and filtering                                            *)
(* ================================================================== *)

Section SortFilter.
Import ArraySort Order.
Context {A : Type} (comparefn : A -> A -> Z).
Hypothesis comparefn_consistent : consistent comparefn.

Let before (x y : option A) : Prop := (SortCompare comparefn x y <= 0)%Z.

Lemma insert_first (x : option A) (l : list (option A)) :
  Forall (before x) l -> insert comparefn x l = x :: l.
Proof.
  intros H. destruct l as [|y l]; [reflexivity |]. cbn.
  apply Forall_inv in H. unfold before in H. apply Z.leb_le in H.
  rewrite H. reflexivity.
Qed.

Lemma sort_cons (x : option A) (l : list (option A)) :
  sort comparefn (x :: l) = insert comparefn x (sort comparefn l).
Proof. reflexivity. Qed.

(** A list in order is left as it is. *)
Lemma sort_of_sorted : forall l, StronglySorted before l -> sort comparefn l = l.
Proof.
  induction 1 as [|x l Hsorted IH Hhead]; [reflexivity |].
  rewrite sort_cons, IH. apply insert_first, Hhead.
Qed.

Lemma filter_insert (f : option A -> bool) (x : option A) : forall l,
  StronglySorted before l ->
  filter f (insert comparefn x l)
  = if f x then insert comparefn x (filter f l) else filter f l.
Proof.
  induction l as [|y l IH]; intros Hsorted.
  - cbn. destruct (f x); reflexivity.
  - apply StronglySorted_inv in Hsorted as [Htail Hhead]. cbn [insert].
    destruct (SortCompare comparefn x y <=? 0)%Z eqn:E.
    + change (filter f (x :: y :: l))
        with (if f x then x :: filter f (y :: l) else filter f (y :: l)).
      destruct (f x); [| reflexivity].
      symmetry. apply insert_first.
      apply Z.leb_le in E.
      assert (Hall : Forall (before x) (y :: l)).
      { constructor; [exact E |]. eapply Forall_impl; [| exact Hhead].
        intros z Hz. apply (before_trans comparefn comparefn_consistent x y z E Hz). }
      apply Forall_forall. intros z Hz.
      apply filter_In in Hz as [Hz _].
      rewrite Forall_forall in Hall. apply Hall, Hz.
    + cbn [filter]. rewrite (IH Htail).
      destruct (f y), (f x); cbn [insert]; rewrite ?E; reflexivity.
Qed.

(** Filtering the sorted list is sorting the filtered list. *)
Lemma filter_sort (f : option A -> bool) : forall l,
  filter f (sort comparefn l) = sort comparefn (filter f l).
Proof.
  induction l as [|x l IH]; [reflexivity |].
  rewrite sort_cons.
  rewrite (filter_insert f x _ (sort_sorted comparefn comparefn_consistent l)).
  cbn [filter]. destruct (f x); [rewrite sort_cons |]; rewrite IH; reflexivity.
Qed.

End SortFilter.

(* ================================================================== *)
(** * Rows                                                             *)
(* ================================================================== *)

Section Rows.
Import JS DonorsListPage View.

Lemma map_indexed_In {A B : Type} (f : A -> nat -> B) (y : B) : forall l index,
  In y (map_indexed f index l) -> exists x j, In x l /\ y = f x j.
Proof.
  induction l as [|x l IH]; intros index H; cbn in H; [contradiction |].
  destruct H as [<- | H].
  - exists x, index. split; [left; reflexivity | reflexivity].
  - destruct (IH _ H) as (x' & j & Hin & ->).
    exists x', j. split; [right; exact Hin | reflexivity].
Qed.

Lemma slice_incl {A : Type} (a b : nat) (l : list A) (x : A) :
  In x (slice a b l) -> In x l.
Proof.
  unfold slice. intros H.
  rewrite <- (firstn_skipn a l). apply in_or_app. right.
  rewrite <- (firstn_skipn (b - a) (skipn a l)). apply in_or_app. left. exact H.
Qed.

Lemma donor_row_complete (d : donor) (index : nat) :
  missing_fields d = false ->
  exists r, d = Some r /\ shows (donor_row d index) r.
Proof.
  intros H. unfold donor_row. rewrite H.
  destruct d as [r|]; [| discriminate H]. cbn in H.
  destruct (NAME r) as [[|c name]|] eqn:En; try discriminate H.
  destruct (CEB_CODE r) as [[|c' code]|] eqn:Ec; try discriminate H.
  exists r. split; [reflexivity |]. eexists. split; [reflexivity |].
  cbn. rewrite En, Ec. repeat split; discriminate.
Qed.

Lemma donor_row_incomplete (d : donor) (index : nat) :
  missing_fields d = true ->
  donor_row d index = InvalidRow ("error-" ++ number_to_string index).
Proof.
  intros H. unfold donor_row. rewrite H. reflexivity.
Qed.

End Rows.

(* ================================================================== *)
(** * The e-mail service: chunking and batch reports                   *)
(* ================================================================== *)

Module EmailClaims.
Import JS EmailService Report Delivery EmailSamples.

(** C9.  [splitIntoChunks] cuts a list into consecutive chunks whose
    concatenation is the list: every chunk has at most 15 elements, every
    chunk but the last exactly 15, none is empty, and the empty list gives
    no chunk.  [submitRequests], once the service is ready, sends a single
    batch when there are at most 15 requests and goes through
    [splitIntoChunks] and [sendMultipleBatches] (at least two batches)
    exactly when there are more than 15. *)
Theorem splitIntoChunks_partitions_requests :
  (forall (A : Type) (requests : list A),
      let chunks := splitIntoChunks requests in
      concat chunks = requests
      /\ Forall (fun c => List.length c <= 15) chunks
      /\ (forall k, S k < List.length chunks -> List.length (nth k chunks []) = 15)
      /\ Forall (fun c => c <> []) chunks
      /\ (requests = [] -> chunks = []))
  /\ (forall config gateway submission s,
         ready config s = true ->
         (List.length (requests submission) <= 15 ->
          submitRequests config gateway submission s
          = sendSingleBatch gateway submission (requests submission) 1 1
              (mkService true (outbox s)))
         /\ (15 < List.length (requests submission) ->
             submitRequests config gateway submission s
             = sendMultipleBatches gateway submission
                 (splitIntoChunks (requests submission)) (mkService true (outbox s))
             /\ 2 <= List.length (splitIntoChunks (requests submission)))).
Proof.
  split.
  - intros A requests chunks. subst chunks. unfold splitIntoChunks.
    destruct (List.length requests =? 0) eqn:E.
    + apply Nat.eqb_eq, length_zero_iff_nil in E. subst requests.
      repeat split; try constructor. intros k Hk. simpl in Hk. lia.
    + apply Nat.eqb_neq in E.
      split; [apply (chunk_loop_concat requests 0) |].
      split; [| split; [apply (chunk_loop_full requests 0) | split]].
      * eapply Forall_impl; [| apply (chunk_loop_sizes requests 0)].
        intros c Hc. unfold CHUNK_SIZE in Hc. lia.
      * eapply Forall_impl; [| apply (chunk_loop_sizes requests 0)].
        intros c Hc ->. simpl in Hc. lia.
      * intros ->. simpl in E. lia.
  - intros config gateway submission s Hready.
    rewrite (submitRequests_ready config gateway submission s Hready).
    unfold CHUNK_SIZE. split; intros Hlen.
    + apply Nat.leb_le in Hlen. rewrite Hlen. reflexivity.
    + assert (E : (List.length (requests submission) <=? 15) = false)
        by (apply Nat.leb_gt; exact Hlen).
      rewrite E. split; [reflexivity |].
      unfold splitIntoChunks.
      destruct (List.length (requests submission) =? 0) eqn:E0;
        [apply Nat.eqb_eq in E0; lia |].
      pose proof (chunk_loop_count (requests submission) 0) as [_ Hcount].
      unfold CHUNK_SIZE in Hcount. lia.
Qed.

Lemma splitIntoChunks_partitions_requests_witness :
  (List.length (requests sample_submission) <= 15 ->
   submitRequests sample_config flaky_gateway sample_submission fresh_service
   = sendSingleBatch flaky_gateway sample_submission (requests sample_submission) 1 1
       (mkService true (outbox fresh_service)))
  /\ (15 < List.length (requests sample_submission) ->
      submitRequests sample_config flaky_gateway sample_submission fresh_service
      = sendMultipleBatches flaky_gateway sample_submission
          (splitIntoChunks (requests sample_submission))
          (mkService true (outbox fresh_service))
      /\ 2 <= List.length (splitIntoChunks (requests sample_submission))).
Proof.
  apply (proj2 splitIntoChunks_partitions_requests
               sample_config flaky_gateway sample_submission fresh_service).
  reflexivity.
Defined.




End EmailClaims.

(* ================================================================== *)
(** * The e-mail service: the CSV snippet                              *)
(* ================================================================== *)

Module CsvClaims.
Import JS EmailService Csv EmailSamples.

(** C10.  [formatCsvSnippets] answers the empty list with the fixed
    no-entries message.  Otherwise its text is the six header lines followed
    by one numbered line per request, in order, each carrying the record
    NAME,TYPE,CEB CODE,CONTRIBUTOR TYPE of its request: the name between
    double quotes exactly when it contains a comma and unchanged otherwise
    (double quotes inside a name are not escaped), TYPE "1" exactly for
    contributor type "C01" and "0" otherwise, and the custom code when there
    is a non-empty one, else the suggested code. *)
Theorem formatCsvSnippets_records :
  forall newRequests : list DonorRequest,
    (newRequests = [] ->
     formatCsvSnippets newRequests = "No new requests requiring CSV database entries.")
    /\ (newRequests <> [] ->
        exists lines,
          formatCsvSnippets newRequests = join nl (csv_header ++ lines)
          /\ List.length lines = List.length newRequests
          /\ forall k req,
              nth_error newRequests k = Some req ->
              exists line,
                nth_error lines k
                = Some (number_to_string (k + 1) ++ ". " ++ line)%string
                /\ csv_record req line).
Proof.
  intros newRequests. split.
  - intros ->. reflexivity.
  - intros Hne. exists (forEach_lines csv_numbered 0 newRequests).
    unfold formatCsvSnippets.
    destruct newRequests as [|r rest]; [contradiction |].
    split; [reflexivity |]. split; [apply forEach_lines_numbered_length |].
    intros k req Hk. exists (csvLine req).
    split; [| apply csvLine_record].
    apply (forEach_lines_numbered (r :: rest) 0 k req Hk).
Qed.

Lemma formatCsvSnippets_records_witness :
  exists lines,
    formatCsvSnippets [quoted_request; sample_request] = join nl (csv_header ++ lines)
    /\ List.length lines = 2
    /\ forall k req,
        nth_error [quoted_request; sample_request] k = Some req ->
        exists line,
          nth_error lines k = Some (number_to_string (k + 1) ++ ". " ++ line)%string
          /\ csv_record req line.
Proof.
  apply (proj2 (formatCsvSnippets_records [quoted_request; sample_request])).
  intros H. discriminate H.
Defined.

End CsvClaims.

(* ================================================================== *)
(** * Contributor type, filter chips, empty states                     *)
(* ================================================================== *)

Module DisplayClaims.
Import JS Page.

(** C8.  Both [getTypeDisplayName] functions agree.  They show "Unknown"
    when the record has no [contributorTypeInfo], or when that has no (or
    an empty) [NAME]; a [NAME] that is there and not empty is shown
    unchanged. *)
Theorem getTypeDisplayName_unknown_or_name :
  forall r : DonorWithType,
    SearchResults.getTypeDisplayName r = DonorsListPage.getTypeDisplayName r
    /\ (contributorTypeInfo r = None ->
        DonorsListPage.getTypeDisplayName r = "Unknown")
    /\ (forall info,
           contributorTypeInfo r = Some info ->
           (type_NAME info = None \/ type_NAME info = Some "") ->
           DonorsListPage.getTypeDisplayName r = "Unknown")
    /\ (forall info name,
           contributorTypeInfo r = Some info ->
           type_NAME info = Some name -> name <> "" ->
           DonorsListPage.getTypeDisplayName r = name).
Proof.
  intros r. unfold SearchResults.getTypeDisplayName, DonorsListPage.getTypeDisplayName.
  split; [reflexivity |]. split; [| split].
  - intros ->. reflexivity.
  - intros info -> [-> | ->]; reflexivity.
  - intros info name -> -> Hname. destruct name; [contradiction | reflexivity].
Qed.

Lemma getTypeDisplayName_unknown_or_name_witness :
  DonorsListPage.getTypeDisplayName
    (mkDonor (Some "France") (Some "FRA") (Some "C01")
             (Some (mkContributorType (Some "Government") None)))
  = "Government".
Proof.
  apply (proj2 (proj2 (proj2 (getTypeDisplayName_unknown_or_name
           (mkDonor (Some "France") (Some "FRA") (Some "C01")
                    (Some (mkContributorType (Some "Government") None))))))
           (mkContributorType (Some "Government") None) "Government");
    [reflexivity | reflexivity | intros H; discriminate H].
Defined.

(** C5.  With a [setFilters] that stores the flags it is given, every click
    on a filter chip leaves at most one of [governmentOnly] and
    [nonGovernmentOnly] on, and so does every non-empty sequence of clicks;
    switching Government on switches Non-Government off, and switching
    Non-Government on switches Government off. *)
Theorem chips_keep_government_filters_exclusive :
  forall setFilters : SearchFilters -> FiltersPatch -> SearchFilters,
    stores_flags setFilters ->
    forall filters : SearchFilters,
      (forall c, exclusive (DonorsListPage.onClick setFilters filters c))
      /\ (forall c cs, exclusive (DonorsListPage.clicks setFilters filters (c :: cs)))
      /\ (governmentOnly filters = false ->
          let next := DonorsListPage.onClick setFilters filters DonorsListPage.Government in
          governmentOnly next = true /\ nonGovernmentOnly next = false)
      /\ (nonGovernmentOnly filters = false ->
          let next := DonorsListPage.onClick setFilters filters DonorsListPage.NonGovernment in
          nonGovernmentOnly next = true /\ governmentOnly next = false).
Proof.
  intros setFilters Hstore.
  assert (Hclick : forall filters c, exclusive (DonorsListPage.onClick setFilters filters c)).
  { intros filters c. unfold exclusive, DonorsListPage.onClick.
    destruct (Hstore filters (DonorsListPage.chip_patch filters c)) as [Hg Hn].
    destruct c; cbn in Hg, Hn |- *.
    - rewrite (Hn false eq_refl). apply andb_false_r.
    - rewrite (Hg false eq_refl). reflexivity.
    - rewrite (Hg false eq_refl). reflexivity. }
  intros filters. split; [apply Hclick |]. split; [| split].
  - intros c cs. revert filters c.
    induction cs as [|c' cs IH]; intros filters c.
    + apply Hclick.
    + apply (IH (DonorsListPage.onClick setFilters filters c) c').
  - intros Hoff next. subst next. unfold DonorsListPage.onClick.
    destruct (Hstore filters (DonorsListPage.chip_patch filters DonorsListPage.Government))
      as [Hg Hn]. cbn in Hg, Hn |- *.
    rewrite (Hg _ eq_refl), (Hn _ eq_refl), Hoff. split; reflexivity.
  - intros Hoff next. subst next. unfold DonorsListPage.onClick.
    destruct (Hstore filters (DonorsListPage.chip_patch filters DonorsListPage.NonGovernment))
      as [Hg Hn]. cbn in Hg, Hn |- *.
    rewrite (Hg _ eq_refl), (Hn _ eq_refl), Hoff. split; reflexivity.
Qed.

Lemma mergeFilters_stores_flags : stores_flags DonorsListPage.mergeFilters.
Proof.
  intros prev p. split; intros b H; unfold DonorsListPage.mergeFilters; rewrite H;
    reflexivity.
Qed.

Lemma chips_keep_government_filters_exclusive_witness :
  exclusive (DonorsListPage.onClick DonorsListPage.mergeFilters
               (mkFilters false true ["C02"]) DonorsListPage.Government).
Proof.
  exact (proj1 (chips_keep_government_filters_exclusive
                  DonorsListPage.mergeFilters mergeFilters_stores_flags
                  (mkFilters false true ["C02"])) DonorsListPage.Government).
Defined.

(** C3.  When the component gets as far as its empty states, that is when
    no search is running, it shows the invitation to enter a search term
    exactly when [stats] is null, and the no-results message exactly when
    [stats] is there and the result list is empty; the two messages
    differ.  In no state is one of the two messages shown for the other
    situation; while a search is running neither is shown, the progress
    indicator is. *)
Theorem empty_states_are_told_apart :
  forall (p : SearchResults.SearchResultsProps) (page : nat),
    SearchResults.isSearching p = false ->
    (SearchResults.stats p = None <-> SearchResults.render p page = enter_a_term)
    /\ ((SearchResults.stats p <> None /\ SearchResults.results p = [])
        <-> SearchResults.render p page = no_results)
    /\ enter_a_term <> no_results
    /\ (forall q page',
           (SearchResults.render q page' = enter_a_term -> SearchResults.stats q = None)
           /\ (SearchResults.render q page' = no_results ->
               SearchResults.stats q <> None /\ SearchResults.results q = []))
    /\ (forall q page',
           SearchResults.isSearching q = true ->
           SearchResults.render q page' = SearchResults.Progress "Searching..."
           /\ SearchResults.render q page' <> enter_a_term
           /\ SearchResults.render q page' <> no_results).
Proof.
  assert (Hany : forall q page',
             (SearchResults.render q page' = enter_a_term -> SearchResults.stats q = None)
             /\ (SearchResults.render q page' = no_results ->
                 SearchResults.stats q <> None /\ SearchResults.results q = [])).
  { intros [rs [s|] [|] sp ip] page'; destruct rs as [|r rs];
      unfold SearchResults.render, enter_a_term, no_results; cbn;
      split; intros H; try discriminate H; try reflexivity;
      split; [discriminate | reflexivity]. }
  intros p page Hidle.
  split; [| split; [| split; [discriminate | split; [exact Hany |]]]].
  - split; [| apply Hany].
    intros Hstats. unfold SearchResults.render. rewrite Hidle, Hstats. reflexivity.
  - split; [| apply Hany].
    intros [Hstats Hres]. unfold SearchResults.render. rewrite Hidle, Hres.
    destruct (SearchResults.stats p); [reflexivity | contradiction].
  - intros q page' Hbusy. unfold SearchResults.render. rewrite Hbusy.
    split; [reflexivity |]. split; intros H; discriminate H.
Qed.

Lemma empty_states_are_told_apart_witness :
  (SearchResults.stats (SearchResults.mkProps [] None false true 20) = None
   <-> SearchResults.render (SearchResults.mkProps [] None false true 20) 1
       = enter_a_term)
  /\ ((SearchResults.stats (SearchResults.mkProps [] None false true 20) <> None
       /\ SearchResults.results (SearchResults.mkProps [] None false true 20) = [])
      <-> SearchResults.render (SearchResults.mkProps [] None false true 20) 1
          = no_results).
Proof.
  split;
    apply (empty_states_are_told_apart
             (SearchResults.mkProps [] None false true 20) 1 eq_refl).
Defined.

End DisplayClaims.

(* ================================================================== *)
(** * The basic search of the list page                                *)
(* ================================================================== *)

Module SearchClaims.
Import JS Page Samples.

(** C1.  The basic search does not survive every query: for the query "("
    the construction of the regular expression throws a [SyntaxError],
    whatever the records are, and nothing catches it; so it does for an
    unmatched ")", a leading "*" and a trailing backslash. *)
Theorem basic_search_throws_on_open_parenthesis :
  forall (results : list SearchResult) (donorsWithTypes : list donor),
    DonorsListPage.displayData "(" false results donorsWithTypes
    = Throws (SyntaxError "Invalid regular expression: /(/gi: Unterminated group")
    /\ (forall query, In query ["("; "un)"; "*"; "a\"; " (who "] ->
                      exists e, DonorsListPage.displayData query false results
                                  donorsWithTypes = Throws e).
Proof.
  intros results donorsWithTypes. split; [reflexivity |].
  intros query Hq. cbn in Hq.
  repeat (destruct Hq as [<- | Hq]; [eexists; reflexivity |]).
  contradiction.
Qed.

(** C6.  Whatever the query and whatever regular expression it is read
    as, a record without a name or without a code, or with an empty one,
    is dropped by the filter before anything is matched.  So the basic
    search, which returns whenever the regular expression can be built,
    returns only records of the catalogue that have a name and a code,
    both non-empty: none of them is a record the page would flag as
    invalid.  With a non-blank query and the basic mode, [displayData] is
    that search.  The regular expressions are those of the host:
    [construct] builds one from the pattern or throws, [matches] tells
    whether a string matches. *)
Theorem basic_search_skips_incomplete_records :
  forall (R : Type) (construct : string -> completion R)
         (matches : R -> string -> bool)
         (query : string) (results : list SearchResult)
         (donorsWithTypes : list donor),
    (forall regex d,
        DonorsListPage.missing_fields d = true ->
        DonorsListPage.filter_callback matches regex d = false)
    /\ (forall regex,
           construct (trim query) = Returns regex ->
           exists found,
             DonorsListPage.basicSearchWith construct matches query donorsWithTypes
             = Returns found)
    /\ (forall found,
           DonorsListPage.basicSearchWith construct matches query donorsWithTypes
           = Returns found ->
           Forall has_name_and_code found
           /\ (forall d, In d found ->
                         In d donorsWithTypes
                         /\ DonorsListPage.missing_fields d = false)
           /\ (truthy (trim query) = true ->
               DonorsListPage.displayDataWith construct matches query false results
                 donorsWithTypes
               = Returns found)).
Proof.
  intros R construct matches query results donors. split; [| split].
  - intros regex d Hd.
    destruct (DonorsListPage.filter_callback matches regex d) eqn:E; [| reflexivity].
    rewrite (filter_callback_complete matches regex d E) in Hd. discriminate Hd.
  - intros regex Hregex. eexists.
    apply (basicSearchWith_run construct matches query donors regex Hregex).
  - intros found Hrun.
    destruct (basicSearchWith_returns construct matches query donors found Hrun)
      as (regex & _ & ->).
    assert (Hfound : forall d,
               In d (filter (DonorsListPage.filter_callback matches regex) donors) ->
               In d donors /\ DonorsListPage.missing_fields d = false).
    { intros d Hd. apply filter_In in Hd as [Hin Hkeep].
      split; [exact Hin | apply (filter_callback_complete matches regex d Hkeep)]. }
    split; [| split].
    + apply Forall_forall. intros d Hd. apply missing_fields_false, (Hfound d Hd).
    + exact Hfound.
    + intros Hquery. unfold DonorsListPage.displayDataWith. rewrite Hquery. exact Hrun.
Qed.

Lemma basic_search_skips_incomplete_records_witness :
  Forall has_name_and_code [Some united_nations]
  /\ (forall d, In d [Some united_nations] ->
                In d catalogue /\ DonorsListPage.missing_fields d = false)
  /\ (truthy (trim " un ") = true ->
      DonorsListPage.displayData " un " false [] catalogue
      = Returns [Some united_nations]).
Proof.
  apply (proj2 (proj2 (basic_search_skips_incomplete_records
                         RegExp.node DonorsListPage.new_RegExp RegExp.test_match
                         " un " [] catalogue))
               [Some united_nations]).
  reflexivity.
Defined.

(** C4, as stated, fails: the query "." is read as a regular expression and
    selects a record although neither its name nor its code contains a
    dot, so the result is not the one of the Partial contract. *)
Lemma dot_query_is_not_a_literal_search :
  DonorsListPage.displayData "." false [] [Some world_bank] = Returns [Some world_bank]
  /\ PartialContract.results_for "." [Some world_bank] = []
  /\ DonorsListPage.displayData "." false [] [Some world_bank]
     <> Returns (PartialContract.results_for "." [Some world_bank]).
Proof.
  split; [reflexivity |]. split; [reflexivity |].
  intros H. discriminate H.
Qed.

(** C4, amended.  For a query that is not blank and whose trimmed text holds
    no syntax character of the pattern grammar, the basic search returns
    exactly the records with a non-empty name and code in which the
    trimmed query occurs as a literal substring of the name or of the
    code, code units being compared under the case folding of the regular
    expression.  For queries and records written in the code units U+0000
    to U+00FF, which are the strings of this development, these are the
    records selected by the Partial contract, where normalising puts a
    string in lower case. *)
Theorem basic_search_is_partial_on_literal_queries :
  forall (query : string) (results : list SearchResult) (donorsWithTypes : list donor),
    truthy (trim query) = true ->
    literal (trim query) = true ->
    DonorsListPage.displayData query false results donorsWithTypes
    = Returns (filter (plain_selects (trim query)) donorsWithTypes)
    /\ filter (plain_selects (trim query)) donorsWithTypes
       = PartialContract.results_for query donorsWithTypes.
Proof.
  intros query results donors Hquery Hlit.
  split; [apply (plain_search query results donors Hquery Hlit) |].
  unfold PartialContract.results_for. apply filter_ext. intros [r|]; [| reflexivity].
  unfold plain_selects, PartialContract.selects, PartialContract.contains,
    PartialContract.normalize.
  destruct (NAME r) as [name|]; [| reflexivity].
  destruct (CEB_CODE r) as [code|]; [| reflexivity].
  rewrite !includes_ci_lowercase. reflexivity.
Qed.

Lemma basic_search_is_partial_on_literal_queries_witness :
  DonorsListPage.displayData " un " false [] catalogue
  = Returns (filter (plain_selects (trim " un ")) catalogue)
  /\ filter (plain_selects (trim " un ")) catalogue
     = PartialContract.results_for " un " catalogue.
Proof.
  apply (basic_search_is_partial_on_literal_queries " un " [] catalogue);
    reflexivity.
Defined.

End SearchClaims.

(* ================================================================== *)
(** * The order of the displayed list                                  *)
(* ================================================================== *)

Module OrderClaims.
Import JS Page Order Samples.

Lemma by_name_consistent (localeCompare : string -> string -> Z) :
  consistent localeCompare -> consistent (DonorsListPage.by_name localeCompare).
Proof.
  intros [Hswap Htrans]. unfold DonorsListPage.by_name. split.
  - intros a b. apply Hswap.
  - intros a b c. apply Htrans.
Qed.

Lemma sorted_in_name_order (localeCompare : string -> string -> Z) :
  forall l : list donor,
    StronglySorted
      (fun x y => (ArraySort.SortCompare (DonorsListPage.by_name localeCompare) x y <= 0)%Z) l ->
    StronglySorted (in_name_order localeCompare) l.
Proof.
  induction 1 as [|x l Hsorted IH Hhead]; constructor; [exact IH |].
  eapply Forall_impl; [| exact Hhead].
  intros [b|] Hb; destruct x as [a|]; cbn in Hb |- *; try exact I; try lia.
  exact Hb.
Qed.

(** C2, as stated, fails: the page sorts what it shows by name alone.  Of
    two results of a smart search, "Zeta" with score 1 and "Beta" with
    score 3/4, the one with the higher score is shown second. *)
Lemma higher_score_is_shown_after_lower :
  DonorsListPage.displayed Collation.localeCompare "zeta" true ranked_results catalogue
  = Returns [Some beta; Some zeta]
  /\ ~ by_descending_score ranked_results [Some beta; Some zeta].
Proof.
  split; [reflexivity |].
  intros H.
  apply (H zeta_result beta_result 1 0); cbn; auto.
  reflexivity.
Qed.

(** C2, amended.  For a comparison of names the sort can rely on, whatever
    the page has to display is shown as a permutation of it sorted by name
    in ascending order, a missing name counting as the empty one and
    undefined entries standing last; this holds for an empty query, where
    all records are to be displayed, as for any other.  The scores of the
    results have no part in it: results with the same records in the same
    order are displayed alike. *)
Theorem shown_list_is_sorted_by_name :
  forall localeCompare : string -> string -> Z,
    consistent localeCompare ->
    forall (query : string) (useAdvancedSearch : bool)
           (results : list SearchResult) (donorsWithTypes toDisplay : list donor),
      DonorsListPage.displayData query useAdvancedSearch results donorsWithTypes
      = Returns toDisplay ->
      let shown := DonorsListPage.sortedData localeCompare toDisplay in
      DonorsListPage.displayed localeCompare query useAdvancedSearch results donorsWithTypes
      = Returns shown
      /\ Permutation toDisplay shown
      /\ StronglySorted (in_name_order localeCompare) shown
      /\ (truthy (trim query) = false -> toDisplay = donorsWithTypes)
      /\ (forall results',
             map item results' = map item results ->
             DonorsListPage.displayed localeCompare query useAdvancedSearch results'
               donorsWithTypes
             = Returns shown).
Proof.
  intros localeCompare Hcmp query adv results donors toDisplay Hdata shown.
  assert (Hshown : DonorsListPage.displayed localeCompare query adv results donors
                   = Returns shown).
  { unfold DonorsListPage.displayed. rewrite Hdata. reflexivity. }
  split; [exact Hshown |]. split; [| split; [| split]].
  - apply sort_permutation.
  - apply sorted_in_name_order.
    apply (sort_sorted _ (by_name_consistent localeCompare Hcmp)).
  - intros Hblank. rewrite displayData_eq in Hdata.
    rewrite Hblank in Hdata. cbn in Hdata. congruence.
  - intros results' Hitems. rewrite <- Hshown.
    unfold DonorsListPage.displayed. rewrite !displayData_eq.
    rewrite <- !(map_map item Some), Hitems. reflexivity.
Qed.

Lemma shown_list_is_sorted_by_name_witness :
  let shown := DonorsListPage.sortedData Collation.localeCompare
                 [Some zeta; Some beta] in
  DonorsListPage.displayed Collation.localeCompare "zeta" true ranked_results catalogue
  = Returns shown
  /\ Permutation [Some zeta; Some beta] shown
  /\ StronglySorted (in_name_order Collation.localeCompare) shown
  /\ (truthy (trim "zeta") = false -> [Some zeta; Some beta] = catalogue)
  /\ (forall results',
         map item results' = map item ranked_results ->
         DonorsListPage.displayed Collation.localeCompare "zeta" true results' catalogue
         = Returns shown).
Proof.
  apply (shown_list_is_sorted_by_name Collation.localeCompare localeCompare_consistent
           "zeta" true ranked_results catalogue [Some zeta; Some beta]).
  reflexivity.
Defined.

End OrderClaims.

(* ================================================================== *)
(** * Further properties of the e-mail service                         *)
(* ================================================================== *)

Module EmailExtras.
Import JS EmailService Report Delivery Csv EmailSamples.

(** X1.  A ready service hands every submission to the gateway as the
    mails of its chunks, in order and once each: one mail for up to 15
    requests (also for none at all), and otherwise one mail per chunk of
    15, numbered from 1, whatever the gateway answered to the earlier
    ones.  The number of mails is the number of requests divided by 15 and
    rounded up, but at least 1. *)
Theorem submitRequests_hands_over_every_chunk :
  forall (config : EmailConfig) (gateway : nat -> EmailContent -> send_outcome)
         (submission : RequestSubmission) (s : service),
    ready config s = true ->
    exists r s',
      submitRequests config gateway submission s = (Returns r, s')
      /\ initialized s' = true
      /\ outbox s' = outbox s ++ expected_mails submission
      /\ List.length (expected_mails submission)
         = Nat.max 1 ((List.length (requests submission) + 14) / 15).
Proof.
  intros config gateway submission s Hready.
  rewrite (submitRequests_ready config gateway submission s Hready).
  unfold expected_mails.
  destruct (List.length (requests submission) <=? CHUNK_SIZE) eqn:E.
  - rewrite sendSingleBatch_outcome. eexists. eexists.
    split; [reflexivity |]. split; [reflexivity |]. split; [reflexivity |].
    apply Nat.leb_le in E. unfold CHUNK_SIZE in E. cbn [List.length].
    destruct (List.length (requests submission)) as [|n]; [reflexivity |].
    assert (H : (S n + 14) / 15 = 1).
    { symmetry. apply (Nat.div_unique _ 15 _ (S n - 1)); lia. }
    rewrite H. reflexivity.
  - set (chunks := splitIntoChunks (requests submission)).
    destruct (batches_loop_delivers gateway submission (List.length chunks)
                (List.length (outbox s)) chunks 0 (mkTally 0 0 [])
                (mkService true (outbox s)))
      as (t & s' & Hloop & Hout & _ & Hinit); [cbn; lia |].
    unfold sendMultipleBatches, bind. fold chunks. rewrite Hloop. unfold ret.
    eexists. exists s'. split; [reflexivity |]. split; [exact Hinit |].
    split; [exact Hout |].
    rewrite length_map. unfold numbered. rewrite length_combine, length_seq, Nat.min_id.
    unfold chunks. rewrite splitIntoChunks_count.
    apply Nat.leb_gt in E. unfold CHUNK_SIZE in E.
    assert (H : 2 <= (List.length (requests submission) + 14) / 15).
    { apply (Nat.div_le_lower_bound); lia. }
    lia.
Qed.

Lemma submitRequests_hands_over_every_chunk_witness :
  exists r s',
    submitRequests sample_config flaky_gateway sample_submission fresh_service
    = (Returns r, s')
    /\ initialized s' = true
    /\ outbox s' = outbox fresh_service ++ expected_mails sample_submission
    /\ List.length (expected_mails sample_submission)
       = Nat.max 1 ((List.length (requests sample_submission) + 14) / 15).
Proof.
  apply (submitRequests_hands_over_every_chunk
           sample_config flaky_gateway sample_submission fresh_service).
  reflexivity.
Defined.

(** X2.  [sendMultipleBatches] goes on after a rejection: it hands over
    the mail of every chunk, and [batchErrors] holds, in the order of the
    chunks, the message "Batch k/n failed: ..." of exactly the chunks whose
    mail the gateway rejected ([batchErrors] is absent when there is none);
    [failedBatches] is their number. *)
Theorem sendMultipleBatches_collects_every_rejection :
  forall (gateway : nat -> EmailContent -> send_outcome)
         (submission : RequestSubmission) (chunks : list (list DonorRequest))
         (s : service),
    let rejections :=
      flat_map (rejection gateway (List.length (outbox s)) submission
                          (List.length chunks))
               (numbered chunks) in
    exists r s',
      sendMultipleBatches gateway submission chunks s = (Returns r, s')
      /\ outbox s' = outbox s ++ map (batch_mail submission (List.length chunks))
                                     (numbered chunks)
      /\ failedBatches r = Some (List.length rejections)
      /\ batchErrors r = match rejections with
                         | [] => None
                         | _ :: _ => Some rejections
                         end.
Proof.
  intros gateway submission chunks s rejections.
  destruct (batches_loop_delivers gateway submission (List.length chunks)
              (List.length (outbox s)) chunks 0 (mkTally 0 0 []) s)
    as (t & s' & Hloop & Hout & Herr & _); [lia |].
  destruct (batches_loop_run gateway submission (List.length chunks) chunks 0
              (mkTally 0 0 []) s)
    as (t1 & s1 & Hloop1 & _ & _ & Hcount & _).
  rewrite Hloop in Hloop1. injection Hloop1 as <- <-.
  cbn in Herr, Hcount. fold (numbered chunks) in Herr. fold rejections in Herr.
  unfold sendMultipleBatches, bind. rewrite Hloop. unfold ret.
  eexists. exists s'. split; [reflexivity |]. split; [exact Hout |]. cbn.
  rewrite Herr in *. split; [f_equal; lia |].
  destruct rejections; reflexivity.
Qed.

(** X3.  A rejection of the only mail of a submission of at most 15
    requests is reported with the gateway's own words: the error is
    "Batch 1/1 failed: " followed by the text of the rejection,
    [batchErrors] holds that text alone, and the result carries no
    submission id.  The rewording that the [catch] of [submitRequests]
    would apply is not. *)
Theorem single_batch_rejection_is_reported_verbatim :
  forall (config : EmailConfig) (gateway : nat -> EmailContent -> send_outcome)
         (submission : RequestSubmission) (s : service) (e : thrown),
    ready config s = true ->
    List.length (requests submission) <= 15 ->
    gateway (List.length (outbox s))
            (formatEmailContent submission (requests submission) 1 1)
    = Rejected e ->
    exists s',
      submitRequests config gateway submission s
      = (Returns
           (mkSubmissionResult false None
              (Some ("Batch 1/1 failed: " ++ batch_error_message e)%string)
              (Some (Rejected e)) (Some 1) (Some 0) (Some 1)
              (Some [batch_error_message e])),
         s').
Proof.
  intros config gateway submission s e Hready Hlen Hreject.
  rewrite (submitRequests_ready config gateway submission s Hready).
  apply Nat.leb_le in Hlen. unfold CHUNK_SIZE. rewrite Hlen.
  rewrite sendSingleBatch_outcome. cbn [outbox]. rewrite Hreject.
  eexists. reflexivity.
Qed.

Lemma single_batch_rejection_is_reported_verbatim_witness :
  exists s',
    submitRequests sample_config expired_gateway small_submission fresh_service
    = (Returns
         (mkSubmissionResult false None
            (Some "Batch 1/1 failed: Invalid grant: please reconnect")
            (Some (Rejected (StatusObject "Invalid grant: please reconnect")))
            (Some 1) (Some 0) (Some 1)
            (Some ["Invalid grant: please reconnect"])),
       s').
Proof.
  apply (single_batch_rejection_is_reported_verbatim
           sample_config expired_gateway small_submission fresh_service
           (StatusObject "Invalid grant: please reconnect"));
    [reflexivity | cbn; lia | reflexivity].
Defined.

(** X4.  A service that is neither initialised nor configured does not
    answer a submission with a failure result: [submitRequests] throws the
    error of [initialize], which names at least one missing variable; no
    mail is handed over and the service stays uninitialised. *)
Theorem submitRequests_throws_when_not_configured :
  forall (config : EmailConfig) (gateway : nat -> EmailContent -> send_outcome)
         (submission : RequestSubmission) (s : service),
    ready config s = false ->
    submitRequests config gateway submission s
    = (Throws (initialization_error config), s)
    /\ missing_variables config <> [].
Proof.
  intros config gateway submission s Hready.
  unfold ready in Hready. apply orb_false_iff in Hready as [Hinit Hconf].
  fold (configured config) in Hconf.
  split.
  - unfold submitRequests, bind at 1. rewrite Hinit. cbn [negb].
    rewrite initialize_run, Hconf. reflexivity.
  - unfold configured in Hconf. unfold missing_variables.
    destruct (truthy_opt (publicKey config)); [| discriminate].
    destruct (truthy_opt (serviceId config)); [| discriminate].
    destruct (truthy_opt (templateId config)); [discriminate Hconf | discriminate].
Qed.

Lemma submitRequests_throws_when_not_configured_witness :
  submitRequests incomplete_config flaky_gateway sample_submission fresh_service
  = (Throws (initialization_error incomplete_config), fresh_service)
  /\ missing_variables incomplete_config <> [].
Proof.
  apply (submitRequests_throws_when_not_configured
           incomplete_config flaky_gateway sample_submission fresh_service).
  reflexivity.
Defined.

(** X5.  [testConnection] never throws and hands nothing to the gateway:
    it answers [true] exactly when the service is initialised already or
    can be initialised from the configuration, and then leaves it
    initialised; otherwise it answers [false] and leaves it as it was. *)
Theorem testConnection_answers_readiness :
  forall (config : EmailConfig) (s : service),
    testConnection config s
    = (Returns (ready config s),
       if ready config s then mkService true (outbox s) else s).
Proof.
  intros config [[|] out]; unfold testConnection, ready, try_catch, bind; cbn.
  - reflexivity.
  - rewrite initialize_run. fold (configured config).
    destruct (configured config); reflexivity.
Qed.

(** X6.  [initialize] succeeds exactly when the public key, the service id
    and the template id are set and not empty; the private key is not
    asked for.  On success the service is initialised and its outbox kept;
    on failure the service is left as it was and the error names exactly
    the variables that are missing. *)
Theorem initialize_asks_for_three_keys :
  forall (config : EmailConfig) (s : service),
    initialize config s
    = (if configured config then (Returns tt, mkService true (outbox s))
       else (Throws (initialization_error config), s))
    /\ (forall key,
           initialize (mkConfig (publicKey config) key (serviceId config)
                                (templateId config)) s
           = initialize config s)
    /\ (In "VITE_EMAILJS_PUBLIC_KEY" (missing_variables config)
        <-> truthy_opt (publicKey config) = false)
    /\ (In "VITE_EMAILJS_SERVICE_ID" (missing_variables config)
        <-> truthy_opt (serviceId config) = false)
    /\ (In "VITE_EMAILJS_TEMPLATE_ID" (missing_variables config)
        <-> truthy_opt (templateId config) = false)
    /\ (configured config = true <-> missing_variables config = []).
Proof.
  intros config s. split; [apply initialize_run |].
  split; [intros key; destruct config; reflexivity |].
  unfold configured, missing_variables.
  destruct (truthy_opt (publicKey config)),
           (truthy_opt (serviceId config)),
           (truthy_opt (templateId config)); cbn;
    repeat split; intros H; try reflexivity; try discriminate H; auto;
    repeat (destruct H as [H | H]; try discriminate H); try contradiction.
Qed.

(** X7.  [getHighestPriority] answers with the name of the highest
    priority among the requests, "low" for no request: no request has a
    higher priority than the answer, and the answer is the priority of one
    of the requests unless there is none. *)
Theorem getHighestPriority_is_the_maximum :
  forall reqs : list DonorRequest,
    exists p : RequestPriority,
      getHighestPriority reqs = priority_string p
      /\ (forall req, In req reqs -> priority_rank (priority req) <= priority_rank p)
      /\ (reqs = [] -> p = low)
      /\ (reqs <> [] -> exists req, In req reqs /\ priority req = p).
Proof.
  intros reqs. unfold getHighestPriority.
  destruct (existsb (priority_eqb high) (map priority reqs)) eqn:Ehigh.
  - exists high. split; [reflexivity |]. split; [| split].
    + intros req _. destruct (priority req); cbn; lia.
    + intros ->. discriminate Ehigh.
    + intros _. apply existsb_exists in Ehigh as (p & Hin & Hp).
      apply in_map_iff in Hin as (req & <- & Hin).
      exists req. split; [exact Hin |]. destruct (priority req); try discriminate Hp.
      reflexivity.
  - assert (Hnohigh : forall req, In req reqs -> priority req <> high).
    { intros req Hin Hp.
      assert (H : existsb (priority_eqb high) (map priority reqs) = true).
      { apply existsb_exists. exists high. split; [| reflexivity].
        rewrite <- Hp. apply in_map, Hin. }
      congruence. }
    destruct (existsb (priority_eqb normal) (map priority reqs)) eqn:Enormal.
    + exists normal. split; [reflexivity |]. split; [| split].
      * intros req Hin. specialize (Hnohigh req Hin).
        destruct (priority req); cbn; try lia. congruence.
      * intros ->. discriminate Enormal.
      * intros _. apply existsb_exists in Enormal as (p & Hin & Hp).
        apply in_map_iff in Hin as (req & <- & Hin).
        exists req. split; [exact Hin |].
        destruct (priority req); try discriminate Hp. reflexivity.
    + assert (Hlow : forall req, In req reqs -> priority req = low).
      { intros req Hin. specialize (Hnohigh req Hin).
        destruct (priority req) eqn:Ep; [reflexivity | | congruence].
        assert (H : existsb (priority_eqb normal) (map priority reqs) = true).
        { apply existsb_exists. exists normal. split; [| reflexivity].
          rewrite <- Ep. apply in_map, Hin. }
        congruence. }
      exists low. split; [reflexivity |]. split; [| split].
      * intros req Hin. rewrite (Hlow req Hin). cbn. lia.
      * reflexivity.
      * intros Hne. destruct reqs as [|req rest]; [contradiction |].
        exists req. split; [left; reflexivity | apply Hlow; left; reflexivity].
Qed.

Lemma with_action_twice (a b : RequestAction) (batch : list DonorRequest) :
  with_action a (with_action b batch)
  = if action_eqb a b then with_action a batch else [].
Proof.
  unfold with_action. induction batch as [|req batch IH]; cbn.
  - destruct (action_eqb a b); reflexivity.
  - destruct (action req) eqn:E, a, b; cbn in *; rewrite ?E; cbn; rewrite ?IH;
      reflexivity.
Qed.

Lemma batchRequests_permutation (batch : list DonorRequest) :
  Permutation batch (batchRequests batch).
Proof.
  unfold batchRequests, with_action. induction batch as [|req batch IH]; cbn.
  - constructor.
  - destruct (action req); cbn.
    + apply perm_skip, IH.
    + etransitivity; [apply perm_skip, IH | apply Permutation_middle].
    + etransitivity; [apply perm_skip, IH |].
      rewrite !app_assoc. apply Permutation_middle.
Qed.

(** X8.  The mail of a batch lists every request of the batch exactly
    once: the new ones first, then the updates, then the removals, each
    kind in the order of the submission.  The text of its table is the
    header followed by one entry per request in that order; the entry of
    the request listed as number k opens with the line "k. <ACTION>
    REQUEST:" and the lines of its name, code, contributor type, priority,
    contact and justification, and closes with an empty line.  The text of
    its CSV part is made from the new requests alone, in the same order:
    the line numbered k is the record of the request whose entry is
    numbered k in the table; without a new request the CSV part is the
    no-entries message. *)
Theorem mail_lists_every_request_once :
  forall (submission : RequestSubmission) (batch : list DonorRequest)
         (batchNumber total : nat),
    let mail := formatEmailContent submission batch batchNumber total in
    Permutation batch (batchRequests batch)
    /\ (forall a, with_action a (batchRequests batch) = with_action a batch)
    /\ (exists entries : list (list string),
          content_requests mail
          = join nl (table_header batchNumber total (List.length batch)
                       ++ concat entries)
          /\ List.length entries = List.length batch
          /\ forall k req,
               nth_error (batchRequests batch) k = Some req ->
               exists more,
                 nth_error entries k = Some (entry_head (k + 1) req ++ more ++ [""]))
    /\ (with_action new batch = [] ->
        content_json_snippet mail = "No new requests requiring CSV database entries.")
    /\ (with_action new batch <> [] ->
        exists lines,
          content_json_snippet mail = join nl (csv_header ++ lines)
          /\ List.length lines = List.length (with_action new batch)
          /\ forall k req,
               nth_error (with_action new batch) k = Some req ->
               nth_error (batchRequests batch) k = Some req
               /\ exists line,
                    nth_error lines k
                    = Some (number_to_string (k + 1) ++ ". " ++ line)%string
                    /\ csv_record req line).
Proof.
  intros submission batch batchNumber total mail. subst mail.
  cbn [formatEmailContent content_requests content_json_snippet].
  fold (batchRequests batch).
  pose proof (batchRequests_permutation batch) as Hperm.
  split; [exact Hperm |]. split; [| split; [| split]].
  - intros a. unfold batchRequests.
    unfold with_action at 1. rewrite !filter_app.
    fold (with_action a (with_action new batch)).
    fold (with_action a (with_action update batch)).
    fold (with_action a (with_action remove batch)).
    rewrite !with_action_twice. destruct a; cbn; rewrite ?app_nil_r; reflexivity.
  - exists (map (fun p => request_lines (fst p) (snd p)) (numbered (batchRequests batch))).
    split; [| split].
    + unfold formatRequestsTable, table_header, numbered.
      rewrite <- (forEach_lines_concat request_lines (batchRequests batch) 0).
      rewrite (Permutation_length Hperm), <- app_assoc. reflexivity.
    + unfold numbered.
      rewrite length_map, length_combine, length_seq, Nat.min_id.
      symmetry. apply (Permutation_length Hperm).
    + intros k req Hk. unfold numbered.
      rewrite (nth_error_map _ k),
        (nth_error_numbered (batchRequests batch) 0 k req Hk).
      cbn [option_map fst snd Nat.add].
      destruct (request_lines_head k req) as (more & ->).
      exists more. reflexivity.
  - intros ->. reflexivity.
  - intros Hne. exists (forEach_lines csv_numbered 0 (with_action new batch)).
    unfold formatCsvSnippets.
    destruct (with_action new batch) as [|r rest] eqn:Enew; [contradiction |].
    split; [reflexivity |]. split; [apply forEach_lines_numbered_length |].
    intros k req Hk. split.
    + unfold batchRequests. rewrite Enew.
      rewrite nth_error_app1; [exact Hk |].
      apply nth_error_Some. congruence.
    + exists (csvLine req). split; [| apply csvLine_record].
      apply (forEach_lines_numbered (r :: rest) 0 k req Hk).
Qed.

Lemma mail_lists_every_request_once_witness :
  exists lines,
    content_json_snippet (formatEmailContent small_submission mixed_batch 2 3)
    = join nl (csv_header ++ lines)
    /\ List.length lines = List.length (with_action new mixed_batch)
    /\ forall k req,
         nth_error (with_action new mixed_batch) k = Some req ->
         nth_error (batchRequests mixed_batch) k = Some req
         /\ exists line,
              nth_error lines k
              = Some (number_to_string (k + 1) ++ ". " ++ line)%string
              /\ csv_record req line.
Proof.
  apply (proj2 (proj2 (proj2 (proj2
           (mail_lists_every_request_once small_submission mixed_batch 2 3))))).
  intros H. discriminate H.
Defined.

(** X9.  The chunk at index [k] of [splitIntoChunks] holds the requests at
    the positions [15 k] to [15 k + 14] (as far as there are any), and
    the number of chunks is the number of requests divided by 15, rounded
    up. *)
Theorem splitIntoChunks_positions :
  forall (A : Type) (requests : list A),
    List.length (splitIntoChunks requests) = (List.length requests + 14) / 15
    /\ (forall k,
           k < List.length (splitIntoChunks requests) ->
           nth k (splitIntoChunks requests) []
           = firstn 15 (skipn (15 * k) requests)).
Proof.
  intros A requests. split.
  - unfold splitIntoChunks. destruct (List.length requests =? 0) eqn:E.
    + apply Nat.eqb_eq in E. rewrite E. reflexivity.
    + pose proof (chunk_loop_count requests 0) as [Hlt Hle]. unfold CHUNK_SIZE in *.
      rewrite Nat.sub_0_r in *.
      apply (Nat.div_unique _ 15 _
               (List.length requests + 14
                - List.length (chunk_loop requests 0 []) * 15)); lia.
  - unfold splitIntoChunks.
    destruct (List.length requests =? 0); [intros k Hk; cbn in Hk; lia |].
    assert (H : forall i k,
               k < List.length (chunk_loop requests i []) ->
               nth k (chunk_loop requests i []) []
               = firstn 15 (skipn (i + 15 * k) requests)).
    { intros i.
      apply (chunk_loop_ind requests
               (fun i cs => forall k, k < List.length cs ->
                                      nth k cs [] = firstn 15 (skipn (i + 15 * k) requests))).
      - intros j _ k Hk. cbn in Hk. lia.
      - intros j Hj IH [|k] Hk; cbn [nth].
        + unfold slice, CHUNK_SIZE. rewrite Nat.mul_0_r, Nat.add_0_r.
          replace (j + 15 - j) with 15 by lia. reflexivity.
        + rewrite IH by (cbn in Hk; lia). unfold CHUNK_SIZE.
          replace (j + 15 + 15 * k) with (j + 15 * S k) by lia. reflexivity. }
    intros k Hk. apply (H 0 k Hk).
Qed.

(** X23.  The table of a mail that is one of several opens with the batch
    header: the number of the batch, the number of batches, and a count of
    requests that is the size of the chunk, none being lost or added by the
    grouping.  The only mail of a submission has no header and opens with
    the title of the table. *)
Theorem batch_header_counts_the_chunk :
  forall (submission : RequestSubmission) (batch : list DonorRequest)
         (batchNumber total : nat),
    let table := content_requests
                   (formatEmailContent submission batch batchNumber total) in
    (1 < total ->
     exists rest,
       table = ("BATCH " ++ number_to_string batchNumber ++ " OF "
                  ++ number_to_string total ++ nl
                  ++ "(" ++ number_to_string (List.length batch)
                  ++ " requests in this batch)" ++ nl
                  ++ nl ++ "REQUEST DETAILS:" ++ nl ++ rest)%string)
    /\ (total <= 1 ->
        exists rest, table = ("REQUEST DETAILS:" ++ nl ++ rest)%string).
Proof.
  intros submission batch batchNumber total table. subst table.
  cbn [formatEmailContent content_requests].
  fold (batchRequests batch). unfold formatRequestsTable.
  rewrite <- (Permutation_length (batchRequests_permutation batch)).
  split; intros Htotal.
  - apply Nat.ltb_lt in Htotal. rewrite Htotal. cbn [app join].
    rewrite !append_assoc. eexists. reflexivity.
  - apply Nat.ltb_ge in Htotal. rewrite Htotal. cbn [app join].
    eexists. reflexivity.
Qed.

Lemma batch_header_counts_the_chunk_witness :
  exists rest,
    content_requests (formatEmailContent small_submission mixed_batch 2 3)
    = ("BATCH " ++ number_to_string 2 ++ " OF " ++ number_to_string 3 ++ nl
         ++ "(" ++ number_to_string (List.length mixed_batch)
         ++ " requests in this batch)" ++ nl
         ++ nl ++ "REQUEST DETAILS:" ++ nl ++ rest)%string.
Proof.
  apply (proj1 (batch_header_counts_the_chunk small_submission mixed_batch 2 3)).
  cbv. lia.
Defined.

End EmailExtras.

(* ================================================================== *)
(** * Further properties of the basic search                           *)
(* ================================================================== *)

Module SearchExtras.
Import JS Page Samples View.

(** X10.  White space around the query does not matter: two queries with
    the same trimmed text are answered alike by [displayData], in both
    modes and the thrown error included, and so are a query and its
    trimmed text. *)
Theorem displayData_ignores_surrounding_space :
  forall (query : string) (useAdvancedSearch : bool)
         (results : list SearchResult) (donorsWithTypes : list donor),
    DonorsListPage.displayData (trim query) useAdvancedSearch results donorsWithTypes
    = DonorsListPage.displayData query useAdvancedSearch results donorsWithTypes
    /\ (forall query',
           trim query' = trim query ->
           DonorsListPage.displayData query' useAdvancedSearch results donorsWithTypes
           = DonorsListPage.displayData query useAdvancedSearch results donorsWithTypes).
Proof.
  intros query adv results donors.
  assert (H : forall query',
             trim query' = trim query ->
             DonorsListPage.displayData query' adv results donors
             = DonorsListPage.displayData query adv results donors).
  { intros query' Heq.
    rewrite !displayData_eq, !basicSearch_eq.
    rewrite Heq. reflexivity. }
  split; [apply H, trim_idempotent | exact H].
Qed.

(** X11.  The case of a plain query does not matter, for queries and
    records written in the code units U+0000 to U+00FF: a query without
    syntax characters selects the same records when it is put in lower
    case, and when it is put in upper case provided it holds none of
    U+00B5, U+00DF and U+00FF, whose upper-case forms are two code units
    or lie outside the range. *)
Theorem plain_query_case_does_not_matter :
  forall (query : string) (results : list SearchResult) (donorsWithTypes : list donor),
    truthy (trim query) = true ->
    literal (trim query) = true ->
    (upper_in_range query = true ->
     DonorsListPage.displayData (toUpperCase query) false results donorsWithTypes
     = DonorsListPage.displayData query false results donorsWithTypes)
    /\ DonorsListPage.displayData (toLowerCase query) false results donorsWithTypes
       = DonorsListPage.displayData query false results donorsWithTypes.
Proof.
  intros query results donors Hquery Hlit.
  destruct upper_keeps as (Hw & Hs & Hc). destruct lower_keeps as (Hw' & Hs' & Hc').
  split.
  - intros Hrange. rewrite (toUpperCase_in_range query Hrange).
    apply (plain_search_map toUpperCase_unit Hw Hs Hc); assumption.
  - apply (plain_search_map toLowerCase_unit Hw' Hs' Hc'); assumption.
Qed.

Lemma plain_query_case_does_not_matter_witness :
  (upper_in_range " un " = true ->
   DonorsListPage.displayData (toUpperCase " un ") false [] catalogue
   = DonorsListPage.displayData " un " false [] catalogue)
  /\ DonorsListPage.displayData (toLowerCase " un ") false [] catalogue
     = DonorsListPage.displayData " un " false [] catalogue.
Proof.
  apply (plain_query_case_does_not_matter " un " [] catalogue); reflexivity.
Defined.

(** X12.  For a query whose trimmed text is a pattern of the modelled
    grammar (pattern characters, [.], escaped syntax characters, groups,
    alternatives and the quantifiers [*], [+] and [?], so without
    assertions such as [^], [$] or [\B], classes, braces and
    back-references): when the pattern matches the empty string, as "x*"
    or "a?" do, the query selects every record that has a name and a code,
    and the basic search lists all of them, whatever they are called. *)
Theorem pattern_matching_nothing_selects_every_complete_record :
  forall (query : string) (results : list SearchResult)
         (donorsWithTypes : list donor) (regex : RegExp.node),
    truthy (trim query) = true ->
    RegExp.compile (trim query) = RegExp.Pattern regex ->
    RegExp.matches_at regex "" = true ->
    DonorsListPage.displayData query false results donorsWithTypes
    = Returns (filter (fun d => negb (DonorsListPage.missing_fields d)) donorsWithTypes).
Proof.
  intros query results donors regex Hquery Hcompile Hempty.
  rewrite displayData_eq, basicSearch_eq.
  rewrite Hquery, Hcompile. cbn [andb]. f_equal.
  apply filter_ext. intros [r|]; [| reflexivity].
  rewrite basic_filter_eq. unfold DonorsListPage.missing_fields.
  destruct (NAME r) as [name|]; [| reflexivity].
  destruct (CEB_CODE r) as [code|]; [| cbn; rewrite orb_true_r; reflexivity].
  rewrite (test_match_nullable regex name Hempty). cbn.
  destruct (truthy name), (truthy code); reflexivity.
Qed.

Lemma pattern_matching_nothing_selects_every_complete_record_witness :
  DonorsListPage.displayData "x*" false [] catalogue
  = Returns (filter (fun d => negb (DonorsListPage.missing_fields d)) catalogue).
Proof.
  apply (pattern_matching_nothing_selects_every_complete_record
           "x*" [] catalogue (RegExp.Seq (RegExp.Star (RegExp.Char "x")) RegExp.Empty));
    reflexivity.
Defined.

(** X13.  An unbalanced parenthesis in otherwise plain text makes the basic
    search throw: a query whose trimmed text is plain text, an opening
    parenthesis and plain text again throws for the unterminated group, and
    one that is plain text followed by a closing parenthesis throws for
    the unmatched parenthesis, whatever comes after it. *)
Theorem unbalanced_parenthesis_throws :
  forall (query : string) (results : list SearchResult) (donorsWithTypes : list donor)
         (before after message : string),
    literal before = true ->
    (trim query = (before ++ String "(" after)%string
     /\ literal after = true /\ message = "Unterminated group")
    \/ (trim query = (before ++ String ")" after)%string
        /\ message = "Unmatched ')'") ->
    DonorsListPage.displayData query false results donorsWithTypes
    = Throws (SyntaxError ("Invalid regular expression: /" ++ trim query
                             ++ "/gi: " ++ message)).
Proof.
  intros query results donors before after message Hbefore Hcase.
  assert (Htruthy : forall c, truthy (before ++ String c after) = true)
    by (intros c; destruct before; reflexivity).
  rewrite displayData_eq, basicSearch_eq.
  destruct Hcase as [(Heq & Hafter & ->) | (Heq & ->)]; rewrite Heq, Htruthy.
  - rewrite (compile_unterminated before after Hbefore Hafter). reflexivity.
  - rewrite (compile_unmatched before after Hbefore). reflexivity.
Qed.

Lemma unbalanced_parenthesis_throws_witness :
  DonorsListPage.displayData " Bank (UK " false [] catalogue
  = Throws (SyntaxError ("Invalid regular expression: /" ++ trim " Bank (UK "
                           ++ "/gi: " ++ "Unterminated group")).
Proof.
  apply (unbalanced_parenthesis_throws " Bank (UK " [] catalogue "Bank " "UK");
    [reflexivity | left; repeat split; reflexivity].
Defined.

(** X14.  A record with a name and a code is found by its own name and by
    its own code, when these are plain text and not blank. *)
Theorem record_is_found_by_its_own_name_or_code :
  forall (results : list SearchResult) (donorsWithTypes : list donor)
         (r : DonorWithType) (name code query : string),
    In (Some r) donorsWithTypes ->
    NAME r = Some name -> CEB_CODE r = Some code ->
    truthy name = true -> truthy code = true ->
    query = name \/ query = code ->
    truthy (trim query) = true ->
    literal (trim query) = true ->
    exists found,
      DonorsListPage.displayData query false results donorsWithTypes = Returns found
      /\ In (Some r) found.
Proof.
  intros results donors r name code query Hin Hname Hcode Htn Htc Hq Hquery Hlit.
  rewrite (plain_search query results donors Hquery Hlit).
  eexists. split; [reflexivity |].
  apply filter_In. split; [exact Hin |].
  unfold plain_selects. rewrite Hname, Hcode, Htn, Htc. cbn [andb].
  destruct Hq as [-> | ->]; rewrite includes_ci_trim; [| rewrite orb_true_r];
    reflexivity.
Qed.

Lemma record_is_found_by_its_own_name_or_code_witness :
  exists found,
    DonorsListPage.displayData "World Bank" false [] catalogue = Returns found
    /\ In (Some world_bank) found.
Proof.
  apply (record_is_found_by_its_own_name_or_code
           [] catalogue world_bank "World Bank" "WB01" "World Bank");
    [left; reflexivity | reflexivity | reflexivity | reflexivity | reflexivity
     | left; reflexivity | reflexivity | reflexivity].
Defined.

(** X15.  Typing on narrows a plain search: when the trimmed text of a
    query extends the trimmed, non-blank text of another and holds no
    syntax character, its results are those among the results of the
    shorter query that it selects, in the same order. *)
Theorem longer_plain_query_narrows_the_results :
  forall (shorter longer more : string) (results : list SearchResult)
         (donorsWithTypes : list donor),
    truthy (trim shorter) = true ->
    trim longer = (trim shorter ++ more)%string ->
    literal (trim longer) = true ->
    exists found found',
      DonorsListPage.displayData shorter false results donorsWithTypes = Returns found
      /\ DonorsListPage.displayData longer false results donorsWithTypes = Returns found'
      /\ found' = filter (plain_selects (trim longer)) found
      /\ (forall d, In d found' -> In d found).
Proof.
  intros shorter longer more results donors Hshort Hext Hlit.
  assert (Hlit' : literal (trim shorter) = true).
  { rewrite Hext, literal_append in Hlit. apply andb_true_iff in Hlit. tauto. }
  assert (Hlong : truthy (trim longer) = true).
  { rewrite Hext. destruct (trim shorter); [discriminate Hshort | reflexivity]. }
  rewrite (plain_search shorter results donors Hshort Hlit').
  rewrite (plain_search longer results donors Hlong Hlit).
  assert (Himp : forall d, plain_selects (trim longer) d = true ->
                           plain_selects (trim shorter) d = true).
  { intros [r|]; [| discriminate]. unfold plain_selects. rewrite Hext.
    destruct (NAME r) as [name|]; [| discriminate].
    destruct (CEB_CODE r) as [code|]; [| discriminate].
    intros H. apply andb_true_iff in H as [Hfields H]. rewrite Hfields. cbn [andb].
    apply orb_true_iff in H as [H | H];
      rewrite (includes_ci_shorter _ _ _ H); [| rewrite orb_true_r]; reflexivity. }
  assert (Heq : filter (plain_selects (trim longer)) donors
                = filter (plain_selects (trim longer))
                         (filter (plain_selects (trim shorter)) donors)).
  { induction donors as [|d donors IH]; [reflexivity |]. cbn [filter].
    destruct (plain_selects (trim longer) d) eqn:E.
    - rewrite (Himp d E). cbn [filter]. rewrite E, IH. reflexivity.
    - destruct (plain_selects (trim shorter) d); [cbn [filter]; rewrite E |]; exact IH. }
  eexists. eexists. split; [reflexivity |]. split; [reflexivity |].
  split; [exact Heq |].
  intros d Hd. apply filter_In in Hd as [Hd Hsel].
  apply filter_In. split; [exact Hd | apply Himp, Hsel].
Qed.

Lemma longer_plain_query_narrows_the_results_witness :
  exists found found',
    DonorsListPage.displayData "un" false [] catalogue = Returns found
    /\ DonorsListPage.displayData "unit " false [] catalogue = Returns found'
    /\ found' = filter (plain_selects (trim "unit ")) found
    /\ (forall d, In d found' -> In d found).
Proof.
  apply (longer_plain_query_narrows_the_results "un" "unit " "it" [] catalogue);
    reflexivity.
Defined.

End SearchExtras.

(* ================================================================== *)
(** * Further properties of the tables                                 *)
(* ================================================================== *)

Module ViewExtras.
Import JS Page Order Samples View.


(** X17.  Searching and sorting commute, whatever regular expression the
    query is read as: for a comparison of names the sort can rely on, and
    a query from which the regular expression can be built, the basic
    search returns the records its filter keeps, and the list shown for
    them is the list shown for all records with the records the filter
    drops left out, the others keeping their places relative to each
    other; and a list that is shown is left as it is by sorting it
    again. *)
Theorem search_results_keep_the_order_of_the_full_list :
  forall localeCompare : string -> string -> Z,
    consistent localeCompare ->
    forall (R : Type) (construct : string -> completion R)
           (matches : R -> string -> bool)
           (query : string) (donorsWithTypes : list donor) (regex : R),
      construct (trim query) = Returns regex ->
      exists found,
        DonorsListPage.basicSearchWith construct matches query donorsWithTypes
        = Returns found
        /\ found = filter (DonorsListPage.filter_callback matches regex) donorsWithTypes
        /\ DonorsListPage.sortedData localeCompare found
           = filter (DonorsListPage.filter_callback matches regex)
                    (DonorsListPage.sortedData localeCompare donorsWithTypes)
        /\ DonorsListPage.sortedData localeCompare
             (DonorsListPage.sortedData localeCompare found)
           = DonorsListPage.sortedData localeCompare found.
Proof.
  intros localeCompare Hcmp R construct matches query donors regex Hregex.
  assert (Hby : consistent (DonorsListPage.by_name localeCompare)).
  { destruct Hcmp as [Hswap Htrans]. unfold DonorsListPage.by_name. split.
    - intros a b. apply Hswap.
    - intros a b c. apply Htrans. }
  eexists. split; [apply (basicSearchWith_run construct matches query donors regex Hregex) |].
  split; [reflexivity |]. split.
  - unfold DonorsListPage.sortedData. symmetry. apply (filter_sort _ Hby).
  - unfold DonorsListPage.sortedData.
    apply sort_of_sorted, (sort_sorted _ Hby).
Qed.

Lemma search_results_keep_the_order_of_the_full_list_witness :
  exists found,
    DonorsListPage.basicSearch "n" catalogue = Returns found
    /\ found = filter (DonorsListPage.basic_filter
                         (RegExp.Seq (RegExp.Char "n") RegExp.Empty)) catalogue
    /\ DonorsListPage.sortedData Collation.localeCompare found
       = filter (DonorsListPage.basic_filter
                   (RegExp.Seq (RegExp.Char "n") RegExp.Empty))
                (DonorsListPage.sortedData Collation.localeCompare catalogue)
    /\ DonorsListPage.sortedData Collation.localeCompare
         (DonorsListPage.sortedData Collation.localeCompare found)
       = DonorsListPage.sortedData Collation.localeCompare found.
Proof.
  apply (search_results_keep_the_order_of_the_full_list
           Collation.localeCompare localeCompare_consistent
           RegExp.node DonorsListPage.new_RegExp RegExp.test_match "n" catalogue
           (RegExp.Seq (RegExp.Char "n") RegExp.Empty)).
  reflexivity.
Defined.



(** X19.  The colour of a score chip follows the score: a missing score
    and the score 0 give "default"; any other score gives "success" above
    8/10, "warning" above 1/2 and up to 8/10, and "error" up to 1/2, so
    that a higher score never gets a worse colour. *)
Theorem score_colour_follows_the_score :
  SearchResults.getScoreColor None = "default"
  /\ (forall q : Q,
         (q == 0)%Q -> SearchResults.getScoreColor (Some q) = "default")
  /\ (forall q : Q,
         ~ (q == 0)%Q ->
         ((8 # 10 < q)%Q -> SearchResults.getScoreColor (Some q) = "success")
         /\ ((1 # 2 < q)%Q -> (q <= 8 # 10)%Q ->
             SearchResults.getScoreColor (Some q) = "warning")
         /\ ((q <= 1 # 2)%Q -> SearchResults.getScoreColor (Some q) = "error"))
  /\ (forall q q' : Q,
         ~ (q == 0)%Q -> ~ (q' == 0)%Q -> (q <= q')%Q ->
         colour_rank (SearchResults.getScoreColor (Some q))
         <= colour_rank (SearchResults.getScoreColor (Some q'))).
Proof.
  assert (Hcases : forall q : Q,
             ~ (q == 0)%Q ->
             ((8 # 10 < q)%Q /\ SearchResults.getScoreColor (Some q) = "success")
             \/ ((1 # 2 < q)%Q /\ (q <= 8 # 10)%Q
                 /\ SearchResults.getScoreColor (Some q) = "warning")
             \/ ((q <= 1 # 2)%Q /\ SearchResults.getScoreColor (Some q) = "error")).
  { intros q Hq. unfold SearchResults.getScoreColor.
    destruct (Qeq_bool q 0) eqn:E0; [apply Qeq_bool_iff in E0; contradiction |].
    destruct (Qle_bool q (8 # 10)) eqn:E8; cbn [negb].
    - apply Qle_bool_iff in E8.
      destruct (Qle_bool q (5 # 10)) eqn:E5; cbn [negb].
      + apply Qle_bool_iff in E5. right. right. split; [| reflexivity].
        unfold Qle in *. cbn in *. lia.
      + right. left. split; [| split; [exact E8 | reflexivity]].
        apply Qnot_le_lt. intros H.
        assert (H' : Qle_bool q (5 # 10) = true)
          by (apply Qle_bool_iff; unfold Qle in *; cbn in *; lia).
        congruence.
    - left. split; [| reflexivity]. apply Qnot_le_lt. intros H.
      apply Qle_bool_iff in H. congruence. }
  split; [reflexivity |]. split; [| split].
  - intros q Hq. unfold SearchResults.getScoreColor.
    apply Qeq_bool_iff in Hq. rewrite Hq. reflexivity.
  - intros q Hq.
    destruct (Hcases q Hq) as [[H ->] | [(H1 & H2 & ->) | [H ->]]];
      repeat split; intros; try reflexivity; exfalso;
      repeat match goal with
             | h : (_ < _)%Q |- _ => unfold Qlt in h; cbn in h
             | h : (_ <= _)%Q |- _ => unfold Qle in h; cbn in h
             end; lia.
  - assert (Hsqueeze : forall a b q q' : Q,
               (a < q)%Q -> (q <= q')%Q -> (q' <= b)%Q -> (b <= a)%Q -> False).
    { intros a b q q' H1 H2 H3 H4.
      apply (Qlt_irrefl a).
      apply (Qlt_le_trans _ q _ H1), (Qle_trans _ q' _ H2), (Qle_trans _ b _ H3), H4. }
    intros q q' Hq Hq' Hle.
    destruct (Hcases q Hq) as [[H ->] | [(H1 & H2 & ->) | [H ->]]];
      destruct (Hcases q' Hq') as [[H' ->] | [(H1' & H2' & ->) | [H' ->]]];
      cbn; try lia; exfalso.
    + apply (Hsqueeze (8 # 10) (8 # 10) q q'); try assumption. apply Qle_refl.
    + apply (Hsqueeze (8 # 10) (1 # 2) q q'); try assumption.
      unfold Qle. cbn. lia.
    + apply (Hsqueeze (1 # 2) (1 # 2) q q'); try assumption. apply Qle_refl.
Qed.

(** X20.  A basic search never produces the row "Invalid donor data",
    whatever regular expression the query is read as: when the regular
    expression can be built the search returns, and on every page each row
    of its table shows a record of the catalogue with its own, non-empty
    name and code, or is the single row "No Results".  Without a search
    such a row does appear: a record without name or code, and an
    undefined entry, is rendered as "Invalid donor data". *)
Theorem search_rows_show_complete_records :
  forall (localeCompare : string -> string -> Z)
         (R : Type) (construct : string -> completion R)
         (matches : R -> string -> bool)
         (query : string) (donorsWithTypes : list donor) (regex : R),
    construct (trim query) = Returns regex ->
    (exists found,
        DonorsListPage.basicSearchWith construct matches query donorsWithTypes
        = Returns found
        /\ forall (page : nat) (rw : DonorsListPage.row),
             In rw (DonorsListPage.table_body
                      (DonorsListPage.paginatedDonors
                         (DonorsListPage.sortedData localeCompare found) page)) ->
             (rw = DonorsListPage.NoResultsRow
              \/ exists r, In (Some r) donorsWithTypes /\ shows rw r)
             /\ (forall index, rw <> DonorsListPage.InvalidRow index))
    /\ (forall d index,
           DonorsListPage.missing_fields d = true ->
           DonorsListPage.donor_row d index
           = DonorsListPage.InvalidRow ("error-" ++ number_to_string index)).
Proof.
  intros localeCompare R construct matches query donors regex Hregex.
  split; [| apply donor_row_incomplete].
  eexists. split; [apply (basicSearchWith_run construct matches query donors regex Hregex) |].
  intros page rw Hrow.
  unfold DonorsListPage.table_body in Hrow.
  destruct (List.length _ =? 0).
  - destruct Hrow as [<- | []]. split; [left; reflexivity | intros index H; discriminate H].
  - apply map_indexed_In in Hrow as (d & index & Hd & ->).
    unfold DonorsListPage.paginatedDonors in Hd. apply slice_incl in Hd.
    unfold DonorsListPage.sortedData in Hd.
    apply (Permutation_in _ (Permutation_sym (sort_permutation _ _))) in Hd.
    apply filter_In in Hd as [Hin Hkeep].
    pose proof (filter_callback_complete matches regex d Hkeep) as Hok.
    destruct (donor_row_complete d index Hok) as (r & -> & Hshows).
    split; [right; exists r; split; assumption |].
    intros index' Hinvalid. destruct Hshows as (cells & Hcells & _).
    rewrite Hcells in Hinvalid. discriminate Hinvalid.
Qed.

Lemma search_rows_show_complete_records_witness :
  (exists found,
      DonorsListPage.basicSearch " un " catalogue = Returns found
      /\ forall (page : nat) (rw : DonorsListPage.row),
           In rw (DonorsListPage.table_body
                    (DonorsListPage.paginatedDonors
                       (DonorsListPage.sortedData Collation.localeCompare found) page)) ->
           (rw = DonorsListPage.NoResultsRow
            \/ exists r, In (Some r) catalogue /\ shows rw r)
           /\ (forall index, rw <> DonorsListPage.InvalidRow index))
  /\ (forall d index,
         DonorsListPage.missing_fields d = true ->
         DonorsListPage.donor_row d index
         = DonorsListPage.InvalidRow ("error-" ++ number_to_string index)).
Proof.
  apply (search_rows_show_complete_records Collation.localeCompare
           RegExp.node DonorsListPage.new_RegExp RegExp.test_match " un " catalogue
           (RegExp.Seq (RegExp.Char "u") (RegExp.Seq (RegExp.Char "n") RegExp.Empty))).
  reflexivity.
Defined.

(** X21.  With a query that is not empty the page shows its first page
    only: the summary counts every record to display, the table holds the
    first 20 of them at most, and no pagination control is rendered,
    however many there are.  A query of white space alone counts as a
    query here although all records are to display. *)
Theorem query_shows_first_page_only :
  forall (localeCompare : string -> string -> Z) (query : string)
         (useAdvancedSearch : bool) (results : list SearchResult)
         (donorsWithTypes toDisplay : list donor),
    truthy query = true ->
    DonorsListPage.displayData query useAdvancedSearch results donorsWithTypes
    = Returns toDisplay ->
    let sorted := DonorsListPage.sortedData localeCompare toDisplay in
    DonorsListPage.results_summary query sorted donorsWithTypes
    = DonorsListPage.ResultsFound (List.length toDisplay)
    /\ DonorsListPage.paginatedDonors sorted 1 = firstn 20 sorted
    /\ List.length (DonorsListPage.paginatedDonors sorted 1)
       = Nat.min 20 (List.length toDisplay)
    /\ DonorsListPage.pagination_shown query sorted = false
    /\ (truthy (trim query) = false -> toDisplay = donorsWithTypes).
Proof.
  intros localeCompare query adv results donors toDisplay Hquery Hdata sorted.
  assert (Hlen : List.length sorted = List.length toDisplay).
  { symmetry. apply Permutation_length, sort_permutation. }
  split; [unfold DonorsListPage.results_summary; rewrite Hquery, Hlen; reflexivity |].
  split; [reflexivity |]. split; [| split].
  - change (DonorsListPage.paginatedDonors sorted 1) with (firstn 20 sorted).
    rewrite length_firstn, Hlen. reflexivity.
  - unfold DonorsListPage.pagination_shown. rewrite Hquery. reflexivity.
  - intros Hblank. rewrite displayData_eq in Hdata.
    rewrite Hblank in Hdata. cbn in Hdata. congruence.
Qed.

Lemma query_shows_first_page_only_witness :
  let sorted := DonorsListPage.sortedData Collation.localeCompare long_catalogue in
  DonorsListPage.results_summary "  " sorted long_catalogue
  = DonorsListPage.ResultsFound (List.length long_catalogue)
  /\ DonorsListPage.paginatedDonors sorted 1 = firstn 20 sorted
  /\ List.length (DonorsListPage.paginatedDonors sorted 1)
     = Nat.min 20 (List.length long_catalogue)
  /\ DonorsListPage.pagination_shown "  " sorted = false
  /\ (truthy (trim "  ") = false -> long_catalogue = long_catalogue).
Proof.
  apply (query_shows_first_page_only Collation.localeCompare "  " false []
           long_catalogue long_catalogue);
    reflexivity.
Defined.

(** X22.  The links of a row lead to its record: the update link and the
    remove link of a row are different, and two rows with the same update
    link, or the same remove link, show the same code. *)
Theorem row_links_identify_the_code :
  forall (d d' : donor) (index index' : nat) (cells cells' : DonorsListPage.DonorCells),
    DonorsListPage.donor_row d index = DonorsListPage.DonorRow cells ->
    DonorsListPage.donor_row d' index' = DonorsListPage.DonorRow cells' ->
    DonorsListPage.update_link cells <> DonorsListPage.remove_link cells
    /\ (DonorsListPage.update_link cells = DonorsListPage.update_link cells' ->
        DonorsListPage.cell_code cells = DonorsListPage.cell_code cells')
    /\ (DonorsListPage.remove_link cells = DonorsListPage.remove_link cells' ->
        DonorsListPage.cell_code cells = DonorsListPage.cell_code cells').
Proof.
  assert (Hlinks : forall d index cells,
             DonorsListPage.donor_row d index = DonorsListPage.DonorRow cells ->
             DonorsListPage.update_link cells
             = ("/donor-update/" ++ encodeURIComponent (DonorsListPage.cell_code cells))%string
             /\ DonorsListPage.remove_link cells
                = ("/donor-remove/"
                     ++ encodeURIComponent (DonorsListPage.cell_code cells))%string).
  { intros d index cells H. unfold DonorsListPage.donor_row in H.
    destruct (DonorsListPage.missing_fields d); [discriminate H |].
    destruct d as [r|]; [| discriminate H].
    destruct (NAME r); [| discriminate H].
    destruct (CEB_CODE r); [| discriminate H].
    injection H as <-. split; reflexivity. }
  intros d d' index index' cells cells' Hrow Hrow'.
  destruct (Hlinks d index cells Hrow) as [Hu Hr].
  destruct (Hlinks d' index' cells' Hrow') as [Hu' Hr'].
  rewrite Hu, Hr, Hu', Hr'. split; [| split].
  - intros H. discriminate H.
  - intros H. apply append_injective in H.
    apply encodeURIComponent_injective, H.
  - intros H. apply append_injective in H.
    apply encodeURIComponent_injective, H.
Qed.

Lemma row_links_identify_the_code_witness :
  DonorsListPage.update_link
    (DonorsListPage.mkCells "BUK-0" "Bank (UK)" "BUK" "Unknown"
       "No definition available" "C06" "C06: Unknown"
       "/donor-update/BUK" "/donor-remove/BUK")
  <> DonorsListPage.remove_link
       (DonorsListPage.mkCells "BUK-0" "Bank (UK)" "BUK" "Unknown"
          "No definition available" "C06" "C06: Unknown"
          "/donor-update/BUK" "/donor-remove/BUK").
Proof.
  apply (proj1 (row_links_identify_the_code (Some bank_uk) (Some bank_uk) 0 0
                  _ _ eq_refl eq_refl)).
Defined.

End ViewExtras.
